(** * AML QuickLook: metric engine and spotlight rules of [app.py]

    A shallow embedding of the pure functions of [src/app.py]
    ([totals], [hourly], [dom_intl], [extremes], [channel_mix],
    [spotlights], [to_builtin]) together with the small part of the
    pandas / NumPy / json behaviour they rely on.

    Modelling conventions.
    - A data frame is the list of its rows, in row order.
    - [tx_datetime] is a [datetime64[ns]] value: nanoseconds since the
      epoch, as an integer.  [NaT] only arises as the maximum of an
      empty column and is modelled by [None].
    - [amount] is an exact integer (an integer-valued column, or an
      amount counted in minor units); sums are exact.  On a column of
      decimal amounts pandas sums in float64, where a sum rounds and may
      depend on the order of the rows; that is not modelled.
    - A Python / NumPy float is an exact rational or one of the special
      values [PInf], [NInf], [NaN]; rounding is not modelled. *)

From Stdlib Require Import ZArith QArith List Bool Lia Permutation Sorted.
From Stdlib Require Import String Ascii OrdersEx.
Import ListNotations.

Set Warnings "-register-all".
Open Scope Z_scope.

(** ** Floats with the special values the code can produce *)

Inductive pyfloat : Type :=
| Fin (q : Q)
| PInf
| NInf
| NaN.

(** [a > b] on floats; every comparison with [NaN] is false. *)
Definition fgt (a b : pyfloat) : bool :=
  match a, b with
  | NaN, _ | _, NaN => false
  | Fin x, Fin y => negb (Qle_bool x y)
  | PInf, (Fin _ | NInf) => true
  | PInf, PInf => false
  | Fin _, NInf => true
  | Fin _, PInf => false
  | NInf, _ => false
  end.

(** True division [a / b] as NumPy performs it on float64 scalars
    (a zero divisor gives an infinity or [NaN], never an exception).
    Finite results are kept in lowest terms, so that equal floats are
    equal terms. *)
Definition fdiv (a b : pyfloat) : pyfloat :=
  match a, b with
  | NaN, _ | _, NaN => NaN
  | Fin x, Fin y =>
      if Qeq_bool y 0
      then (if Qeq_bool x 0 then NaN
            else if Qle_bool 0 x then PInf else NInf)
      else Fin (Qred (x / y))
  | Fin _, (PInf | NInf) => Fin 0
  | PInf, Fin y => if Qle_bool 0 y then PInf else NInf
  | NInf, Fin y => if Qle_bool 0 y then NInf else PInf
  | (PInf | NInf), (PInf | NInf) => NaN
  end.

(** An integer used where a float is expected. *)
Definition of_int (z : Z) : pyfloat := Fin (inject_Z z).

(** Python's builtin [max(a, b)]: start with [a], replace it by [b]
    only when [b > a] holds. *)
Definition py_max (a b : pyfloat) : pyfloat :=
  if fgt b a then b else a.

(** ** Data model *)

Record Transaction : Type := mkTx {
  tx_datetime : Z;
  amount : Z;
  counterparty_country_code : string;
  channel : string
}.

Definition DataFrame : Type := list Transaction.

(** A [{"count": _, "value": _}] dictionary. *)
Record CV (V : Type) : Type := mkCV { count : Z; value : V }.
Arguments mkCV {V} _ _.
Arguments count {V} _.
Arguments value {V} _.

Record Totals : Type := mkTotals {
  deposits : CV Z;
  withdrawals : CV Z
}.

Record DomIntl : Type := mkDomIntl {
  domestic : CV pyfloat;
  international : CV pyfloat
}.

(** ** pandas primitives *)

(** [len(df)] *)
Definition len {A : Type} (l : list A) : Z := Z.of_nat (List.length l).

(** [series.sum()] on an integer column; the empty sum is 0. *)
Definition sum (l : list Z) : Z := fold_right Z.add 0 l.

(** [df.amount] *)
Definition amounts (df : DataFrame) : list Z := map amount df.

(** [df[df.amount > 0]] and [df[df.amount < 0]] *)
Definition positive (df : DataFrame) : DataFrame :=
  filter (fun r => 0 <? amount r) df.
Definition negative (df : DataFrame) : DataFrame :=
  filter (fun r => amount r <? 0) df.

(** *** groupby

    [df.groupby(key)] (with the default [sort=True]) has one group per
    distinct key, the groups in ascending key order, each group holding
    the rows of that key in row order. *)
Section GroupBy.
Context {K : Type} (cmp : K -> K -> comparison).

Definition same_key (a b : K) : bool :=
  match cmp a b with Eq => true | _ => false end.

Fixpoint insert_key (k : K) (ks : list K) : list K :=
  match ks with
  | [] => [k]
  | k' :: ks' =>
      match cmp k k' with
      | Lt => k :: ks
      | Eq => ks
      | Gt => k' :: insert_key k ks'
      end
  end.

Definition sorted_keys (ks : list K) : list K :=
  fold_right insert_key [] ks.

Definition groupby {A : Type} (key : A -> K) (df : list A)
  : list (K * list A) :=
  map (fun k => (k, filter (fun r => same_key (key r) k) df))
      (sorted_keys (map key df)).

(** [g.loc[k]] / [k in g.index] on a keyed table. *)
Fixpoint loc {V : Type} (k : K) (g : list (K * V)) : option V :=
  match g with
  | [] => None
  | (k', v) :: g' => if same_key k k' then Some v else loc k g'
  end.
End GroupBy.

(** ** 1. Metric engine *)

(** [totals(df)] *)
Definition totals (df : DataFrame) : Totals :=
  let dep := positive df in
  let wd := negative df in
  {| deposits := {| count := len dep; value := sum (amounts dep) |};
     withdrawals := {| count := len wd;
                       value := Z.abs (sum (amounts wd)) |} |}.

(** [False < True], as pandas orders a boolean group key. *)
Definition bool_compare (a b : bool) : comparison :=
  match a, b with
  | false, true => Lt
  | true, false => Gt
  | _, _ => Eq
  end.

(** [dom_intl(df, home)].  [g] is the table
    [groupby("dom")["amount"].agg(["count","sum"])]. *)
Definition dom_intl (df : DataFrame) (home : string) : DomIntl :=
  let g := map (fun kg => (fst kg, (len (snd kg), sum (amounts (snd kg)))))
               (groupby bool_compare
                  (fun r => String.eqb (counterparty_country_code r) home) df) in
  let row (flag : bool) : CV pyfloat :=
    match loc bool_compare flag g with
    | Some (c, s) => {| count := c; value := of_int (Z.abs s) |}
    | None => {| count := 0; value := Fin 0 |}
    end in
  {| domestic := row true; international := row false |}.

(** The default [home="ZA"]. *)
Definition home_default : string := "ZA"%string.

(** *** Hour of day, reindex *)

Definition NS_PER_HOUR : Z := 3600 * 10 ^ 9.

(** [tx_datetime.dt.hour] *)
Definition hour (t : Z) : Z := (t / NS_PER_HOUR) mod 24.

Definition hour_of (r : Transaction) : Z := hour (tx_datetime r).

(** [range(n)] *)
Definition range (n : nat) : list Z := map Z.of_nat (seq 0 n).

(** [s.reindex(idx, fill_value=fill)] on a series keyed by integers. *)
Definition reindex (idx : list Z) (fill : Z) (s : list (Z * Z))
  : list (Z * Z) :=
  map (fun h => (h, match loc Z.compare h s with
                    | Some c => c
                    | None => fill
                    end)) idx.

(** [hourly(df)]: the series as the list of its (index, value) pairs. *)
Definition hourly (df : DataFrame) : list (Z * Z) :=
  reindex (range 24) 0
          (map (fun kg => (fst kg, len (snd kg)))
               (groupby Z.compare hour_of df)).

(** *** nlargest / nsmallest with [n = 1] and the default [keep="first"] *)

Definition nlargest1 (df : DataFrame) : DataFrame :=
  match df with
  | [] => []
  | r :: rest =>
      [fold_left (fun best x => if amount best <? amount x then x else best)
                 rest r]
  end.

Definition nsmallest1 (df : DataFrame) : DataFrame :=
  match df with
  | [] => []
  | r :: rest =>
      [fold_left (fun best x => if amount x <? amount best then x else best)
                 rest r]
  end.

Record Extremes : Type := mkExtremes {
  largest_deposit : DataFrame;
  largest_withdrawal : DataFrame
}.

(** [extremes(df)] *)
Definition extremes (df : DataFrame) : Extremes :=
  {| largest_deposit := nlargest1 (positive df);
     largest_withdrawal := nsmallest1 (negative df) |}.

(** *** sort_values

    [sort_values(by, ascending)] with the default [kind="quicksort"]
    returns the rows ordered by the key.  That sort is not stable: the
    order among rows of equal key is not specified.  A [Sorter] is any
    function that can stand for it, and [sorts] is all the code may rely
    on: the result holds the same rows, ordered by the key. *)
Definition Sorter : Type :=
  forall A : Type, (A -> Z) -> bool -> list A -> list A.

Definition ordered_by {A : Type} (by_ : A -> Z) (ascending : bool)
           (a b : A) : Prop :=
  if ascending then by_ a <= by_ b else by_ b <= by_ a.

Definition sorts (sort_by : Sorter) : Prop :=
  forall (A : Type) (by_ : A -> Z) (ascending : bool) (l : list A),
    Permutation (sort_by A by_ ascending l) l
    /\ StronglySorted (ordered_by by_ ascending) (sort_by A by_ ascending l).

(** One such function, used to run the code and wherever the order of
    equal keys cannot show (the sorted values behind [median], the
    counts of [value_counts]): pandas' [nargsort] (ascending, the rows
    are argsorted; descending, they are reversed, argsorted and reversed
    again) over an insertion sort. *)
Section SortValues.
Context {A : Type} (by_ : A -> Z).

Fixpoint insert_sorted (x : A) (l : list A) : list A :=
  match l with
  | [] => [x]
  | y :: l' =>
      if by_ x <=? by_ y then x :: l else y :: insert_sorted x l'
  end.

Definition argsort (l : list A) : list A :=
  fold_right insert_sorted [] l.

Definition sort_values (ascending : bool) (l : list A) : list A :=
  if ascending then argsort l else rev (argsort (rev l)).
End SortValues.

(** A row of the channel-mix table: the channel (the former index,
    after [reset_index]) with its [count] and [value] columns. *)
Definition MixRow : Type := (string * CV Z)%type.

(** [channel_mix(df)]; [sort_by] is the sort behind [sort_values]. *)
Definition channel_mix (sort_by : Sorter) (df : DataFrame) : list MixRow :=
  let agg :=
    map (fun kg => (fst kg, {| count := len (snd kg);
                               value := sum (amounts (snd kg)) |}))
        (groupby String_as_OT.compare channel df) in
  let absd :=
    map (fun r => (fst r, {| count := Z.abs (count (snd r));
                             value := Z.abs (value (snd r)) |})) agg in
  sort_by MixRow (fun r => value (snd r)) false absd.

(** ** 2. Spotlight rules *)

(** Distinct values in order of first appearance. *)
Fixpoint unique (l : list Z) : list Z :=
  match l with
  | [] => []
  | x :: r => x :: filter (fun y => negb (y =? x)) (unique r)
  end.

(** [series.value_counts()]: one entry per value that occurs, with the
    number of its occurrences, most frequent first. *)
Definition value_counts (l : list Z) : list (Z * Z) :=
  sort_values snd false
              (map (fun k => (k, len (filter (Z.eqb k) l))) (unique l)).

(** [series.max()]; [NaN] ([NaT] for timestamps) on an empty series. *)
Definition series_max (l : list Z) : option Z :=
  match l with
  | [] => None
  | x :: r => Some (fold_left Z.max r x)
  end.

Definition opt_float (o : option Z) : pyfloat :=
  match o with
  | Some z => of_int z
  | None => NaN
  end.

(** [series.median()]: the middle of the sorted values, the mean of the
    two middle ones for an even length, [NaN] on an empty series. *)
Definition median (l : list Z) : pyfloat :=
  let s := argsort (fun z => z) l in
  let n := List.length s in
  match n with
  | O => NaN
  | _ =>
      if Nat.even n
      then Fin (Qred ((inject_Z (nth (n / 2 - 1) s 0)
                       + inject_Z (nth (n / 2) s 0)) / inject_Z 2))
      else Fin (inject_Z (nth (n / 2) s 0))
  end.

(** [timedelta(days=90)] in nanoseconds. *)
Definition DAYS_90 : Z := 90 * 86400 * 10 ^ 9.

(** [df_hist[df_hist.tx_datetime >= hist_start]]; no row compares
    [>=] to [NaT]. *)
Definition since (hist_start : option Z) (df_hist : DataFrame) : DataFrame :=
  match hist_start with
  | Some s => filter (fun r => s <=? tx_datetime r) df_hist
  | None => []
  end.

Definition hist_start (df_win : DataFrame) : option Z :=
  option_map (fun m => m - DAYS_90) (series_max (map tx_datetime df_win)).

Definition win_max (df_win : DataFrame) : pyfloat :=
  opt_float (series_max (map snd (value_counts (map hour_of df_win)))).

Definition hist_med (df_win df_hist : DataFrame) : pyfloat :=
  median (map snd (value_counts
                     (map hour_of (since (hist_start df_win) df_hist)))).

Record Burst : Type := mkBurst { burst_flag : bool; score : pyfloat }.
Record Imbalance : Type := mkImbalance { imbalance_flag : bool; ratio : pyfloat }.
Record Spotlights : Type := mkSpotlights {
  burst : Burst;
  imbalance : Imbalance
}.

(** The literals [3] and [1.2]. *)
Definition three : pyfloat := of_int 3.
Definition one_point_two : pyfloat := Fin (12 # 10).

(** [spotlights(df_win, df_hist)] *)
Definition spotlights (df_win df_hist : DataFrame) : Spotlights :=
  let wm := win_max df_win in
  let hm := hist_med df_win df_hist in
  let dep := sum (amounts (positive df_win)) in
  let wd := Z.abs (sum (amounts (negative df_win))) in
  {| burst :=
       {| burst_flag := fgt (fdiv wm (py_max hm (of_int 1))) three;
          score := fdiv wm (py_max hm (of_int 1)) |};
     imbalance :=
       {| imbalance_flag :=
            if negb (dep =? 0)
            then fgt (fdiv (of_int wd) (of_int dep)) one_point_two
            else true;
          ratio :=
            if negb (dep =? 0)
            then fdiv (of_int wd) (of_int dep)
            else PInf |} |}.

(** ** 3. The serialization boundary *)

(** Python values that can reach [json.dumps]: the builtin kinds the
    encoder knows, the NumPy scalars the engine produces ([np.int64],
    [np.float64], [np.float32], [np.bool_]), and any other object that
    is not a NumPy scalar (a set, a datetime, a DataFrame, ...), kept by
    its type name.  NumPy scalars of other kinds (complex, datetime64,
    longdouble, ...) are not represented.  Dictionaries have string
    keys, as every dictionary built by the engine does. *)
Inductive pyobj : Type :=
| PyNone
| PyBool (b : bool)
| PyInt (z : Z)
| PyFloat (f : pyfloat)
| PyStr (s : string)
| PyList (l : list pyobj)
| PyDict (d : list (string * pyobj))
| NpInt (z : Z)
| NpFloat64 (f : pyfloat)
| NpFloat32 (f : pyfloat)
| NpBool (b : bool)
| PyOther (type_name : string).

(** [isinstance(obj, (np.generic,))], on the values represented. *)
Definition is_np_generic (o : pyobj) : bool :=
  match o with
  | NpInt _ | NpFloat64 _ | NpFloat32 _ | NpBool _ => true
  | _ => false
  end.

(** [obj.item()] of a NumPy scalar of one of these four kinds. *)
Definition item (o : pyobj) : pyobj :=
  match o with
  | NpInt z => PyInt z
  | NpFloat64 f | NpFloat32 f => PyFloat f
  | NpBool b => PyBool b
  | _ => o
  end.

(** [to_builtin(obj)]; [None] stands for [raise TypeError]. *)
Definition to_builtin (o : pyobj) : option pyobj :=
  if is_np_generic o then Some (item o) else None.

(** The encoded document. *)
Inductive json : Type :=
| JNull
| JBool (b : bool)
| JInt (z : Z)
| JFloat (f : pyfloat)
| JStr (s : string)
| JArr (l : list json)
| JObj (d : list (string * json)).

Inductive result (A : Type) : Type :=
| Ok (a : A)
| RaiseTypeError
| OutOfFuel.
Arguments Ok {A} _.
Arguments RaiseTypeError {A}.
Arguments OutOfFuel {A}.

Definition bind {A B : Type} (r : result A) (k : A -> result B) : result B :=
  match r with
  | Ok a => k a
  | RaiseTypeError => RaiseTypeError
  | OutOfFuel => OutOfFuel
  end.

(** The encoder of [json]: builtin kinds are encoded directly
    ([np.float64] is a subclass of [float] and is encoded as one), lists
    and dictionaries element by element, anything else is handed to
    [other]. *)
Section Encoder.
Variable other : pyobj -> result json.

Fixpoint encode (o : pyobj) : result json :=
  match o with
  | PyNone => Ok JNull
  | PyBool b => Ok (JBool b)
  | PyInt z => Ok (JInt z)
  | PyFloat f | NpFloat64 f => Ok (JFloat f)
  | PyStr s => Ok (JStr s)
  | PyList l =>
      bind ((fix items (l : list pyobj) : result (list json) :=
               match l with
               | [] => Ok []
               | x :: r =>
                   bind (encode x) (fun j =>
                   bind (items r) (fun js => Ok (j :: js)))
               end) l)
           (fun js => Ok (JArr js))
  | PyDict d =>
      bind ((fix members (d : list (string * pyobj))
              : result (list (string * json)) :=
               match d with
               | [] => Ok []
               | (k, x) :: r =>
                   bind (encode x) (fun j =>
                   bind (members r) (fun js => Ok ((k, j) :: js)))
               end) d)
           (fun js => Ok (JObj js))
  | _ => other o
  end.
End Encoder.

(** [json.dumps(obj, default=default)]: an object the encoder does not
    know is replaced by [default(obj)], which is encoded in turn; without
    a [default] the encoder raises [TypeError].  [fuel] bounds the number
    of nested [default] calls. *)
Fixpoint json_dumps (default : option (pyobj -> option pyobj)) (fuel : nat)
         (o : pyobj) : result json :=
  encode (fun o' =>
            match default with
            | None => RaiseTypeError
            | Some f =>
                match f o' with
                | None => RaiseTypeError
                | Some o'' =>
                    match fuel with
                    | O => OutOfFuel
                    | S n => json_dumps default n o''
                    end
                end
            end) o.

(** The two serializations at the head of [narrative(metrics, spots)]:
    [json_payload] is built with [default=to_builtin]; the prompt then
    serializes the same dictionary again without a [default]. *)
Definition narrative_payload (metrics spots : pyobj) : pyobj :=
  PyDict [("metrics"%string, metrics); ("spotlights"%string, spots)].

Definition narrative_prompt (fuel : nat) (metrics spots : pyobj)
  : result json :=
  bind (json_dumps (Some to_builtin) fuel (narrative_payload metrics spots))
       (fun _json_payload =>
          json_dumps None fuel (narrative_payload metrics spots)).

(** *** The serialization contract, in the specification's words

    A value is recognized when it is a string, number, boolean, null,
    mapping or sequence (of recognized values) or a NumPy scalar. *)
Fixpoint recognized (o : pyobj) : bool :=
  match o with
  | PyOther _ => false
  | PyList l =>
      (fix all (l : list pyobj) : bool :=
         match l with
         | [] => true
         | x :: r => recognized x && all r
         end) l
  | PyDict d =>
      (fix all (d : list (string * pyobj)) : bool :=
         match d with
         | [] => true
         | (_, x) :: r => recognized x && all r
         end) d
  | _ => true
  end.

(** ** Vocabulary of the stated properties *)

(** Row position at which channel [c] is first met in [df]. *)
Fixpoint first_seen (c : string) (df : DataFrame) : nat :=
  match df with
  | [] => O
  | r :: rest =>
      if String.eqb (channel r) c then O else S (first_seen c rest)
  end.

(** Channel [c] is met before channel [c'] in [df]. *)
Definition encounter_order (df : DataFrame) (c c' : string) : Prop :=
  (first_seen c df < first_seen c' df)%nat.

(** Rows of a channel-mix table that share a value are ordered by [R]
    on their channels. *)
Definition ties_ordered (R : string -> string -> Prop) (out : list MixRow)
  : Prop :=
  forall v, StronglySorted (fun a b => R (fst a) (fst b))
                           (filter (fun r => value (snd r) =? v) out).

(** A table is sorted by value, largest first. *)
Definition value_descending (out : list MixRow) : Prop :=
  StronglySorted (fun a b => value (snd b) <= value (snd a)) out.

(** Rows of a given channel. *)
Definition of_channel (c : string) (df : DataFrame) : DataFrame :=
  filter (fun r => String.eqb (channel r) c) df.

(** Domestic and international rows with respect to [home]. *)
Definition is_domestic (home : string) (r : Transaction) : bool :=
  String.eqb (counterparty_country_code r) home.
Definition domestic_rows (home : string) (df : DataFrame) : DataFrame :=
  filter (is_domestic home) df.
Definition international_rows (home : string) (df : DataFrame) : DataFrame :=
  filter (fun r => negb (is_domestic home r)) df.

(** Rows with a zero amount. *)
Definition zero_amount (df : DataFrame) : DataFrame :=
  filter (fun r => amount r =? 0) df.

(** Rows that fall in hour-of-day [h]. *)
Definition in_hour (h : Z) (df : DataFrame) : DataFrame :=
  filter (fun r => hour_of r =? h) df.

(** The history rows the burst rule looks at. *)
Definition recent_history (df_win df_hist : DataFrame) : DataFrame :=
  since (hist_start df_win) df_hist.

(** In the words of the claim on [hist_med]: the history rows of the 90
    days that end at the latest timestamp of the window. *)
Definition trailing_90_days (df_win df_hist : DataFrame) : DataFrame :=
  match series_max (map tx_datetime df_win) with
  | Some m =>
      filter (fun r => (m - DAYS_90 <=? tx_datetime r)
                       && (tx_datetime r <=? m)) df_hist
  | None => []
  end.

(** ** Concrete tables *)

(** A timestamp on day [d] (days since the epoch) at hour [h]. *)
Definition at_ (d h : Z) : Z := (d * 24 + h) * NS_PER_HOUR.

(** Scenario A: deposits of 100, 200, 300 and a withdrawal of 50, all
    with a domestic counterparty. *)
Definition scenario_A : DataFrame :=
  [ mkTx (at_ 20000 9) 100 "ZA" "EFT";
    mkTx (at_ 20000 10) 200 "ZA" "EFT";
    mkTx (at_ 20001 11) 300 "ZA" "ATM";
    mkTx (at_ 20002 12) (-50) "ZA" "ATM" ].

(** Scenario B: no deposit, one withdrawal of 10. *)
Definition scenario_B : DataFrame :=
  [ mkTx (at_ 20000 9) (-10) "ZA" "ATM" ].

(** Scenario C: five transactions, all in hour 14. *)
Definition scenario_C : DataFrame :=
  [ mkTx (at_ 20000 14) 10 "ZA" "EFT";
    mkTx (at_ 20001 14) 20 "ZA" "EFT";
    mkTx (at_ 20002 14) 30 "ZA" "EFT";
    mkTx (at_ 20003 14) 40 "ZA" "EFT";
    mkTx (at_ 20004 14) 50 "ZA" "EFT" ].

(** Two channels with the same value, "EFT" met before "ATM". *)
Definition tied_channels : DataFrame :=
  [ mkTx (at_ 20000 9) 10 "ZA" "EFT";
    mkTx (at_ 20000 10) 10 "ZA" "ATM" ].

(** The same two rows, "ATM" met before "EFT". *)
Definition tied_channels_swapped : DataFrame :=
  [ mkTx (at_ 20000 10) 10 "ZA" "ATM";
    mkTx (at_ 20000 9) 10 "ZA" "EFT" ].

(** A table of four rows, one in hour 14 on day 20000 and three in hour
    9 on the following days, and the window that selects day 20000. *)
Definition four_days : DataFrame :=
  [ mkTx (at_ 20000 14) 10 "ZA" "EFT";
    mkTx (at_ 20001 9) 20 "ZA" "EFT";
    mkTx (at_ 20002 9) 30 "ZA" "EFT";
    mkTx (at_ 20003 9) 40 "ZA" "EFT" ].
Definition first_day : DataFrame :=
  [ mkTx (at_ 20000 14) 10 "ZA" "EFT" ].

(** Three rows of equal extreme amounts. *)
Definition tied_extremes : DataFrame :=
  [ mkTx (at_ 20000 9) 70 "ZA" "EFT";
    mkTx (at_ 20000 10) (-30) "ZA" "ATM";
    mkTx (at_ 20000 11) 70 "US" "ATM";
    mkTx (at_ 20000 12) (-30) "US" "EFT";
    mkTx (at_ 20000 13) 0 "ZA" "EFT" ].

(** A payload as the dashboard builds it: NumPy integers for the sums,
    a NumPy boolean for the burst flag. *)
Definition sample_metrics : pyobj :=
  PyDict [("totals"%string,
           PyDict [("deposits"%string,
                    PyDict [("count"%string, PyInt 3);
                            ("value"%string, NpInt 600)])])].
Definition sample_spots : pyobj :=
  PyDict [("burst"%string,
           PyDict [("flag"%string, NpBool false);
                   ("score"%string, NpFloat64 (Fin 1))])].

(** ** 4. The dashboard script around the engine *)

Definition NS_PER_SEC : Z := 10 ^ 9.
Definition NS_PER_DAY : Z := 86400 * 10 ^ 9.

(** [ts.date()], as a number of days since the epoch. *)
Definition date (t : Z) : Z := t / NS_PER_DAY.

(** [pd.to_datetime(d)] for a date [d]: midnight of that day. *)
Definition to_datetime (d : Z) : Z := d * NS_PER_DAY.

(** [series.min()]; [NaT] on an empty series. *)
Definition series_min (l : list Z) : option Z :=
  match l with
  | [] => None
  | x :: r => Some (fold_left Z.min r x)
  end.

(** The default value of the date picker:
    [(df.tx_datetime.min().date(), df.tx_datetime.max().date())]. *)
Definition default_window (df : DataFrame) : option (Z * Z) :=
  match series_min (map tx_datetime df), series_max (map tx_datetime df) with
  | Some lo, Some hi => Some (date lo, date hi)
  | _, _ => None
  end.

(** [start, end = pd.to_datetime(win[0]),
     pd.to_datetime(win[1]) + timedelta(days=1) - timedelta(seconds=1)] *)
Definition window_start (win : Z * Z) : Z := to_datetime (fst win).
Definition window_end (win : Z * Z) : Z :=
  to_datetime (snd win) + NS_PER_DAY - NS_PER_SEC.

(** [dfw = df[(df.tx_datetime>=start) & (df.tx_datetime<=end)]] *)
Definition select_window (win : Z * Z) (df : DataFrame) : DataFrame :=
  filter (fun r => (window_start win <=? tx_datetime r)
                   && (tx_datetime r <=? window_end win)) df.

(** [pd.concat([ex['largest_deposit'], ex['largest_withdrawal']])
       .reset_index(drop=True)] *)
Definition extremes_table (df : DataFrame) : DataFrame :=
  largest_deposit (extremes df) ++ largest_withdrawal (extremes df).

(** A timestamp without a fractional second. *)
Definition whole_second (t : Z) : Prop := t mod NS_PER_SEC = 0.

(** A value the encoder of [json] handles without a [default]: builtin
    kinds and [np.float64] only, at every depth. *)
Fixpoint plain (o : pyobj) : bool :=
  match o with
  | PyNone | PyBool _ | PyInt _ | PyFloat _ | PyStr _ | NpFloat64 _ => true
  | PyList l =>
      (fix all (l : list pyobj) : bool :=
         match l with
         | [] => true
         | x :: r => plain x && all r
         end) l
  | PyDict d =>
      (fix all (d : list (string * pyobj)) : bool :=
         match d with
         | [] => true
         | (_, x) :: r => plain x && all r
         end) d
  | NpInt _ | NpFloat32 _ | NpBool _ | PyOther _ => false
  end.

(** A table with a row one nanosecond after 23:59:59 of day 20000. *)
Definition late_row : Transaction :=
  mkTx (at_ 20000 23 + 3599 * NS_PER_SEC + 1) 25 "ZA" "EFT".
Definition with_late_row : DataFrame :=
  [ mkTx (at_ 20000 9) 100 "ZA" "EFT"; late_row ].

(** * Properties *)

(** ** Counting and summing *)

Lemma len_nil {A : Type} : len (@nil A) = 0.
Proof. reflexivity. Qed.

Lemma len_cons {A : Type} (x : A) (l : list A) : len (x :: l) = 1 + len l.
Proof. unfold len. cbn [List.length]. lia. Qed.

Lemma len_nonneg {A : Type} (l : list A) : 0 <= len l.
Proof. unfold len. lia. Qed.

Lemma len_zero_nil {A : Type} (l : list A) : len l = 0 -> l = [].
Proof.
  destruct l; [reflexivity|]. intros H. rewrite len_cons in H.
  pose proof (len_nonneg l). lia.
Qed.

Lemma sum_cons (x : Z) (l : list Z) : sum (x :: l) = x + sum l.
Proof. reflexivity. Qed.

Lemma sum_app (l l' : list Z) : sum (l ++ l') = sum l + sum l'.
Proof.
  induction l as [|x l IH]; [reflexivity|].
  rewrite <- app_comm_cons, !sum_cons, IH. lia.
Qed.

(** A filter that no row passes is empty. *)
Lemma filter_none {A : Type} (p : A -> bool) (l : list A) :
  (forall x, In x l -> p x = false) -> filter p l = [].
Proof.
  induction l as [|x l IH]; intros H; cbn; [reflexivity|].
  rewrite (H x (or_introl eq_refl)). apply IH. intros y Hy. apply H. now right.
Qed.

(** A filter that every row passes changes nothing. *)
Lemma filter_all {A : Type} (p : A -> bool) (l : list A) :
  (forall x, In x l -> p x = true) -> filter p l = l.
Proof.
  induction l as [|x l IH]; intros H; cbn; [reflexivity|].
  rewrite (H x (or_introl eq_refl)). f_equal. apply IH. intros y Hy. apply H. now right.
Qed.

(** Splitting a table by a predicate and its complement loses no row. *)
Lemma len_split {A : Type} (p : A -> bool) (l : list A) :
  len (filter p l) + len (filter (fun x => negb (p x)) l) = len l.
Proof.
  induction l as [|x l IH]; [reflexivity|].
  cbn [filter]. destruct (p x); cbn [negb]; rewrite !len_cons; lia.
Qed.

(** Counting and summing the rows that pass a test on the amount only
    depend on the column of amounts. *)
Lemma len_filter_amount (p : Z -> bool) (df : DataFrame) :
  len (filter (fun r => p (amount r)) df) = len (filter p (amounts df)).
Proof.
  induction df as [|r df IH]; [reflexivity|].
  cbn. destruct (p (amount r)); rewrite ?len_cons; now rewrite IH.
Qed.

Lemma sum_filter_amount (p : Z -> bool) (df : DataFrame) :
  sum (amounts (filter (fun r => p (amount r)) df)) = sum (filter p (amounts df)).
Proof.
  induction df as [|r df IH]; [reflexivity|].
  cbn [filter amounts map]. fold (amounts df).
  destruct (p (amount r)); cbn [amounts map]; fold (amounts df);
    rewrite ?sum_cons; now rewrite <- IH.
Qed.

Lemma len_perm {A : Type} (l l' : list A) : Permutation l l' -> len l = len l'.
Proof. intros H. unfold len. now rewrite (Permutation_length H). Qed.

Lemma sum_perm (l l' : list Z) : Permutation l l' -> sum l = sum l'.
Proof.
  induction 1 as [| x l l' _ IH | x y l | l l' l'' _ IH1 _ IH2];
    rewrite ?sum_cons; lia.
Qed.

Lemma filter_perm {A : Type} (p : A -> bool) (l l' : list A) :
  Permutation l l' -> Permutation (filter p l) (filter p l').
Proof.
  induction 1 as [| x l l' _ IH | x y l | l l' l'' _ IH1 _ IH2]; cbn.
  - constructor.
  - destruct (p x); [now constructor | assumption].
  - destruct (p x), (p y); try apply Permutation_refl. apply perm_swap.
  - now transitivity (filter p l').
Qed.

(** ** groupby *)

Section GroupByFacts.
Context {K : Type} (cmp : K -> K -> comparison).
Hypothesis cmp_eq : forall a b, cmp a b = Eq <-> a = b.

Lemma same_key_iff (a b : K) : same_key cmp a b = true <-> a = b.
Proof.
  unfold same_key. rewrite <- cmp_eq. destruct (cmp a b); split; congruence.
Qed.

Lemma same_key_refl (a : K) : same_key cmp a a = true.
Proof. now apply same_key_iff. Qed.

Lemma in_insert_key (x k : K) (ks : list K) :
  In x (insert_key cmp k ks) <-> x = k \/ In x ks.
Proof.
  induction ks as [|k' ks IH]; cbn.
  - intuition.
  - destruct (cmp k k') eqn:E; cbn.
    + apply cmp_eq in E. subst k'. intuition.
    + intuition.
    + rewrite IH. intuition.
Qed.

Lemma in_sorted_keys (x : K) (ks : list K) :
  In x (sorted_keys cmp ks) <-> In x ks.
Proof.
  induction ks as [|k ks IH]; cbn; [tauto|].
  rewrite in_insert_key, IH. intuition.
Qed.

(** Looking a key up in a table built from a list of keys. *)
Lemma loc_keyed {V : Type} (f : K -> V) (k : K) (ks : list K) :
  loc cmp k (map (fun k' => (k', f k')) ks)
  = if existsb (same_key cmp k) ks then Some (f k) else None.
Proof.
  induction ks as [|k' ks IH]; cbn; [reflexivity|].
  destruct (same_key cmp k k') eqn:E; cbn; [|exact IH].
  apply same_key_iff in E. now subst.
Qed.

Lemma existsb_sorted_keys (k : K) (ks : list K) :
  existsb (same_key cmp k) (sorted_keys cmp ks) = existsb (same_key cmp k) ks.
Proof.
  apply eq_true_iff_eq. rewrite !existsb_exists.
  split; intros [x [Hin Hx]]; exists x; split; auto;
    now apply in_sorted_keys.
Qed.

(** The group of key [k], aggregated by [agg], when the table is
    grouped by [key]: present exactly when some row has key [k]. *)
Lemma loc_groupby {A V : Type} (key : A -> K) (agg : list A -> V)
      (k : K) (df : list A) :
  loc cmp k (map (fun kg => (fst kg, agg (snd kg))) (groupby cmp key df))
  = if existsb (fun r => same_key cmp (key r) k) df
    then Some (agg (filter (fun r => same_key cmp (key r) k) df))
    else None.
Proof.
  unfold groupby. rewrite map_map. cbn [fst snd].
  rewrite (loc_keyed (fun k' => agg (filter (fun r => same_key cmp (key r) k') df))).
  rewrite existsb_sorted_keys.
  replace (existsb (same_key cmp k) (map key df))
    with (existsb (fun r => same_key cmp (key r) k) df); [reflexivity|].
  induction df as [|r df IH]; cbn; [reflexivity|].
  rewrite IH. f_equal.
  apply eq_true_iff_eq. rewrite !same_key_iff. split; congruence.
Qed.

(** Exactly one key of a duplicate-free key list matches a row. *)
Lemma one_match (x : K) (ks : list K) :
  NoDup ks -> In x ks ->
  sum (map (fun k => if same_key cmp x k then 1 else 0) ks) = 1.
Proof.
  induction 1 as [|k ks Hk Hnd IH]; intros Hin; [destruct Hin|].
  cbn [map]. rewrite sum_cons.
  destruct (same_key cmp x k) eqn:E.
  - apply same_key_iff in E. subst k.
    assert (Hz : sum (map (fun k => if same_key cmp x k then 1 else 0) ks) = 0).
    { clear IH Hin Hnd. induction ks as [|k ks IH]; [reflexivity|].
      cbn [map]. rewrite sum_cons.
      destruct (same_key cmp x k) eqn:E.
      - apply same_key_iff in E. subst. exfalso. apply Hk. now left.
      - rewrite IH; [reflexivity|]. intros H. apply Hk. now right. }
    lia.
  - destruct Hin as [->|Hin]; [now rewrite same_key_refl in E|].
    rewrite (IH Hin). lia.
Qed.

(** The groups of a duplicate-free key list that covers every row's
    key hold every row exactly once. *)
Lemma groups_cover {A : Type} (key : A -> K) (ks : list K) (df : list A) :
  NoDup ks -> (forall r, In r df -> In (key r) ks) ->
  sum (map (fun k => len (filter (fun r => same_key cmp (key r) k) df)) ks)
  = len df.
Proof.
  intros Hnd. induction df as [|r df IH]; intros Hin.
  - cbn [filter]. clear. induction ks; [reflexivity|]. cbn [map]. now rewrite sum_cons, IHks.
  - assert (Hsplit :
      sum (map (fun k => len (filter (fun r' => same_key cmp (key r') k) (r :: df))) ks)
      = sum (map (fun k => if same_key cmp (key r) k then 1 else 0) ks)
        + sum (map (fun k => len (filter (fun r' => same_key cmp (key r') k) df)) ks)).
    { clear. induction ks as [|k ks IHk]; [reflexivity|].
      cbn [map]. rewrite !sum_cons, IHk. cbn [filter].
      destruct (same_key cmp (key r) k); rewrite ?len_cons; lia. }
    rewrite Hsplit, len_cons, IH by (intros; apply Hin; now right).
    rewrite (one_match (key r) ks Hnd (Hin r (or_introl eq_refl))).
    reflexivity.
Qed.
End GroupByFacts.

Lemma bool_compare_eq (a b : bool) : bool_compare a b = Eq <-> a = b.
Proof. destruct a, b; cbn; split; congruence. Qed.

Lemma existsb_false_filter {A : Type} (p : A -> bool) (l : list A) :
  existsb p l = false -> filter p l = [].
Proof.
  intros H. apply filter_none. intros x Hx.
  destruct (p x) eqn:E; [|reflexivity].
  assert (existsb p l = true) by (apply existsb_exists; eauto). congruence.
Qed.

Lemma existsb_ext {A : Type} (p q : A -> bool) (l : list A) :
  (forall x, p x = q x) -> existsb p l = existsb q l.
Proof.
  intros H. induction l as [|x l IH]; cbn; [reflexivity|]. now rewrite H, IH.
Qed.

Lemma filter_nil_existsb {A : Type} (p : A -> bool) (l : list A) :
  filter p l = [] -> existsb p l = false.
Proof.
  intros H. destruct (existsb p l) eqn:E; [|reflexivity].
  apply existsb_exists in E. destruct E as [x [Hin Hp]].
  assert (Hx : In x (filter p l)) by (apply filter_In; auto).
  rewrite H in Hx. destruct Hx.
Qed.

(** ** Directional totals *)

Lemma three_way_count (df : DataFrame) :
  len (positive df) + len (negative df) + len (zero_amount df) = len df.
Proof.
  unfold positive, negative, zero_amount.
  induction df as [|r df IH]; [reflexivity|].
  cbn [filter].
  destruct (0 <? amount r) eqn:P, (amount r <? 0) eqn:N, (amount r =? 0) eqn:Z0;
    rewrite ?len_cons; try lia.
  all: rewrite ?Z.ltb_lt, ?Z.ltb_ge, ?Z.eqb_eq, ?Z.eqb_neq in *; lia.
Qed.

Lemma sum_negative_nonpos (df : DataFrame) : sum (amounts (negative df)) <= 0.
Proof.
  unfold negative. induction df as [|r df IH]; cbn; [lia|].
  destruct (amount r <? 0) eqn:N; [|exact IH].
  cbn [map]. rewrite sum_cons. apply Z.ltb_lt in N. unfold amounts in IH. lia.
Qed.

Lemma sum_positive_nonneg (df : DataFrame) : 0 <= sum (amounts (positive df)).
Proof.
  unfold positive. induction df as [|r df IH]; cbn; [lia|].
  destruct (0 <? amount r) eqn:N; [|exact IH].
  cbn [map]. rewrite sum_cons. apply Z.ltb_lt in N. unfold amounts in IH. lia.
Qed.

(** A sum of strictly positive amounts is zero only when there is none. *)
Lemma sum_positive_zero (df : DataFrame) :
  sum (amounts (positive df)) = 0 <-> positive df = [].
Proof.
  split; [|intros ->; reflexivity].
  unfold positive. induction df as [|r df IH]; cbn [filter]; [reflexivity|].
  destruct (0 <? amount r) eqn:N; [|exact IH].
  cbn [amounts map]. fold (amounts (filter (fun r => 0 <? amount r) df)).
  rewrite sum_cons. apply Z.ltb_lt in N.
  pose proof (sum_positive_nonneg df) as Hp. unfold positive in Hp. lia.
Qed.

(** C7. [totals] reports, for deposits, the count and the sum of the rows
    with [amount > 0]; for withdrawals, the count of the rows with
    [amount < 0] and the absolute magnitude of their (non-positive) sum.
    Rows with a zero amount are on neither side: the two counts and the
    number of zero-amount rows add up to the number of rows.  A side
    without rows is reported as count 0, value 0. *)
Theorem totals_directional (df : DataFrame) :
  (forall r, In r (positive df) <-> In r df /\ 0 < amount r)
  /\ (forall r, In r (negative df) <-> In r df /\ amount r < 0)
  /\ deposits (totals df)
     = {| count := len (positive df); value := sum (amounts (positive df)) |}
  /\ withdrawals (totals df)
     = {| count := len (negative df);
          value := - sum (amounts (negative df)) |}
  /\ 0 <= value (withdrawals (totals df))
  /\ count (deposits (totals df)) + count (withdrawals (totals df))
     + len (zero_amount df) = len df
  /\ (positive df = [] -> deposits (totals df) = {| count := 0; value := 0 |})
  /\ (negative df = [] -> withdrawals (totals df) = {| count := 0; value := 0 |}).
Proof.
  split; [|split; [|split; [|split; [|split; [|split; [|split]]]]]].
  - intros r. unfold positive. rewrite filter_In, Z.ltb_lt. tauto.
  - intros r. unfold negative. rewrite filter_In, Z.ltb_lt. tauto.
  - reflexivity.
  - cbn. f_equal. pose proof (sum_negative_nonpos df). lia.
  - cbn. lia.
  - cbn [totals deposits withdrawals count]. apply three_way_count.
  - intros H. cbn. now rewrite H.
  - intros H. cbn. now rewrite H.
Qed.

Lemma totals_directional_witness :
  deposits (totals scenario_B) = {| count := 0; value := 0 |}
  /\ withdrawals (totals []) = {| count := 0; value := 0 |}.
Proof.
  split.
  - apply (totals_directional scenario_B). reflexivity.
  - apply (totals_directional []). reflexivity.
Defined.

(** ** Domestic / international split *)

Lemma dom_intl_rows (df : DataFrame) (home : string) :
  domestic (dom_intl df home)
  = {| count := len (domestic_rows home df);
       value := of_int (Z.abs (sum (amounts (domestic_rows home df)))) |}
  /\ international (dom_intl df home)
     = {| count := len (international_rows home df);
          value := of_int (Z.abs (sum (amounts (international_rows home df)))) |}.
Proof.
  unfold dom_intl. cbn [domestic international].
  rewrite !(loc_groupby bool_compare bool_compare_eq
              (fun r => String.eqb (counterparty_country_code r) home)
              (fun g => (len g, sum (amounts g)))).
  assert (Ht : forall b, same_key bool_compare b true = b) by (now intros []).
  assert (Hf : forall b, same_key bool_compare b false = negb b) by (now intros []).
  split.
  - rewrite (filter_ext _ (is_domestic home)) by (intros; apply Ht).
    rewrite (existsb_ext _ (is_domestic home)) by (intros; apply Ht).
    fold (domestic_rows home df).
    destruct (existsb (is_domestic home) df) eqn:E; [reflexivity|].
    unfold domestic_rows. now rewrite (existsb_false_filter _ _ E).
  - rewrite (filter_ext _ (fun r => negb (is_domestic home r))) by (intros; apply Hf).
    rewrite (existsb_ext _ (fun r => negb (is_domestic home r))) by (intros; apply Hf).
    fold (international_rows home df).
    destruct (existsb (fun r => negb (is_domestic home r)) df) eqn:E; [reflexivity|].
    unfold international_rows. now rewrite (existsb_false_filter _ _ E).
Qed.

(** C6. With respect to [home], every row is on exactly one side:
    domestic when its [counterparty_country_code] equals [home],
    international otherwise.  [dom_intl] reports the number of rows of
    each side, the two counts add up to the number of rows, and a side
    without rows is reported as count 0, value 0.0. *)
Theorem dom_intl_partition (df : DataFrame) (home : string) :
  (forall r, In r df ->
     (counterparty_country_code r = home
      /\ In r (domestic_rows home df) /\ ~ In r (international_rows home df))
     \/ (counterparty_country_code r <> home
         /\ In r (international_rows home df) /\ ~ In r (domestic_rows home df)))
  /\ count (domestic (dom_intl df home)) = len (domestic_rows home df)
  /\ count (international (dom_intl df home)) = len (international_rows home df)
  /\ count (domestic (dom_intl df home))
     + count (international (dom_intl df home)) = len df
  /\ (domestic_rows home df = [] ->
      domestic (dom_intl df home) = {| count := 0; value := Fin 0 |})
  /\ (international_rows home df = [] ->
      international (dom_intl df home) = {| count := 0; value := Fin 0 |}).
Proof.
  destruct (dom_intl_rows df home) as [Hd Hi].
  split; [|split; [|split; [|split; [|split]]]].
  - intros r Hr. unfold domestic_rows, international_rows.
    rewrite !filter_In. unfold is_domestic.
    destruct (String.eqb_spec (counterparty_country_code r) home) as [E|E];
      [left | right]; cbn; intuition congruence.
  - now rewrite Hd.
  - now rewrite Hi.
  - rewrite Hd, Hi. cbn [count]. apply len_split.
  - intros H. rewrite Hd, H. reflexivity.
  - intros H. rewrite Hi, H. reflexivity.
Qed.

Lemma dom_intl_partition_witness :
  international (dom_intl scenario_A "ZA") = {| count := 0; value := Fin 0 |}
  /\ domestic (dom_intl scenario_A "US") = {| count := 0; value := Fin 0 |}.
Proof.
  split.
  - apply (dom_intl_partition scenario_A "ZA"). reflexivity.
  - apply (dom_intl_partition scenario_A "US"). reflexivity.
Defined.

(** ** Scenario A *)

(** C1, as the code computes it.  For every table whose amounts are
    100, 200, 300 and -50 (in any row order) and whose counterparties are
    all in "ZA": [totals] gives deposits (3, 600) and withdrawals (1, 50);
    [dom_intl] gives international (0, 0.0) and domestic count 4 with
    value 550.0, the magnitude of the net sum 100 + 200 + 300 - 50. *)
Theorem scenario_A_results (df : DataFrame) :
  Permutation (amounts df) [100; 200; 300; -50] ->
  (forall r, In r df -> counterparty_country_code r = "ZA"%string) ->
  totals df = {| deposits := {| count := 3; value := 600 |};
                 withdrawals := {| count := 1; value := 50 |} |}
  /\ dom_intl df "ZA"
     = {| domestic := {| count := 4; value := of_int 550 |};
          international := {| count := 0; value := Fin 0 |} |}.
Proof.
  intros Hperm Hza. split.
  - unfold totals, positive, negative.
    rewrite (len_filter_amount (fun a => 0 <? a)), (sum_filter_amount (fun a => 0 <? a)).
    rewrite (len_filter_amount (fun a => a <? 0)), (sum_filter_amount (fun a => a <? 0)).
    rewrite (len_perm _ _ (filter_perm (fun a => 0 <? a) _ _ Hperm)).
    rewrite (sum_perm _ _ (filter_perm (fun a => 0 <? a) _ _ Hperm)).
    rewrite (len_perm _ _ (filter_perm (fun a => a <? 0) _ _ Hperm)).
    rewrite (sum_perm _ _ (filter_perm (fun a => a <? 0) _ _ Hperm)).
    reflexivity.
  - destruct (dom_intl_rows df "ZA") as [Hd Hi].
    assert (Hdom : domestic_rows "ZA" df = df).
    { apply filter_all. intros r Hr. unfold is_domestic.
      rewrite (Hza r Hr). reflexivity. }
    assert (Hint : international_rows "ZA" df = []).
    { apply filter_none. intros r Hr. unfold is_domestic.
      rewrite (Hza r Hr). reflexivity. }
    rewrite Hdom in Hd. rewrite Hint in Hi.
    assert (Hlen : len df = 4).
    { unfold len. rewrite <- (length_map amount). fold (amounts df).
      now rewrite (Permutation_length Hperm). }
    rewrite (sum_perm _ _ Hperm), Hlen in Hd.
    destruct (dom_intl df "ZA") as [d i]. cbn in Hd, Hi. now subst.
Qed.

Lemma scenario_A_results_witness :
  totals scenario_A = {| deposits := {| count := 3; value := 600 |};
                         withdrawals := {| count := 1; value := 50 |} |}
  /\ dom_intl scenario_A "ZA"
     = {| domestic := {| count := 4; value := of_int 550 |};
          international := {| count := 0; value := Fin 0 |} |}.
Proof.
  apply (scenario_A_results scenario_A).
  - vm_compute. apply Permutation_refl.
  - intros r Hr. cbn in Hr.
    destruct Hr as [<-|[<-|[<-|[<-|[]]]]]; reflexivity.
Defined.

(** C1 as stated does not hold: on scenario A the domestic value is not
    650 (the sum of the magnitudes). *)
Lemma scenario_A_as_stated_fails :
  ~ (totals scenario_A = {| deposits := {| count := 3; value := 600 |};
                            withdrawals := {| count := 1; value := 50 |} |}
     /\ dom_intl scenario_A "ZA"
        = {| domestic := {| count := 4; value := of_int 650 |};
             international := {| count := 0; value := Fin 0 |} |}).
Proof.
  intros [_ H]. vm_compute in H. discriminate H.
Qed.

(** ** Hourly distribution *)

Lemma same_key_Z (a b : Z) : same_key Z.compare a b = (a =? b).
Proof.
  unfold same_key. destruct (Z.compare_spec a b) as [E|E|E].
  - subst. now rewrite Z.eqb_refl.
  - symmetry. apply Z.eqb_neq. lia.
  - symmetry. apply Z.eqb_neq. lia.
Qed.

Lemma in_range (n : nat) (h : Z) : In h (range n) <-> 0 <= h < Z.of_nat n.
Proof.
  unfold range. rewrite in_map_iff. split.
  - intros [k [<- Hk]]. apply in_seq in Hk. lia.
  - intros H. exists (Z.to_nat h). split; [lia|]. apply in_seq. lia.
Qed.

Lemma NoDup_range (n : nat) : NoDup (range n).
Proof.
  unfold range. apply Finite.Injective_map_NoDup; [|apply seq_NoDup].
  intros a b H. lia.
Qed.

Lemma hour_bounds (t : Z) : 0 <= hour t < 24.
Proof. unfold hour. apply Z.mod_pos_bound. lia. Qed.

(** The series returned by [hourly]: for each hour of [range(24)], the
    number of rows in that hour. *)
Lemma hourly_counts (df : DataFrame) :
  hourly df = map (fun h => (h, len (in_hour h df))) (range 24).
Proof.
  unfold hourly, reindex. apply map_ext. intros h. f_equal.
  rewrite (loc_groupby Z.compare Z.compare_eq_iff hour_of (fun g => len g)).
  rewrite (filter_ext _ (fun r => hour_of r =? h)) by (intros; apply same_key_Z).
  rewrite (existsb_ext _ (fun r => hour_of r =? h)) by (intros; apply same_key_Z).
  fold (in_hour h df).
  destruct (existsb (fun r => hour_of r =? h) df) eqn:E; [reflexivity|].
  unfold in_hour. now rewrite (existsb_false_filter _ _ E).
Qed.

(** C5. [hourly] has exactly 24 entries, for the hours 0 to 23 in
    ascending order; the entry of an hour is the number of rows in that
    hour, hence 0 for an hour without rows; the 24 entries add up to the
    number of rows. *)
Theorem hourly_dense (df : DataFrame) :
  List.length (hourly df) = 24%nat
  /\ map fst (hourly df)
     = [0; 1; 2; 3; 4; 5; 6; 7; 8; 9; 10; 11; 12; 13; 14; 15; 16; 17; 18;
        19; 20; 21; 22; 23]
  /\ (forall h c, In (h, c) (hourly df) -> c = len (in_hour h df))
  /\ (forall h, 0 <= h < 24 -> in_hour h df = [] -> In (h, 0) (hourly df))
  /\ sum (map snd (hourly df)) = len df.
Proof.
  rewrite hourly_counts.
  split; [|split; [|split; [|split]]].
  - now rewrite length_map.
  - rewrite map_map. cbn [fst]. rewrite map_id. reflexivity.
  - intros h c H. apply in_map_iff in H. destruct H as [h' [E _]].
    now inversion E.
  - intros h Hh He. apply in_map_iff. exists h. rewrite He. split; [reflexivity|].
    apply in_range. cbn. lia.
  - rewrite map_map. cbn [snd].
    rewrite <- (groups_cover Z.compare Z.compare_eq_iff hour_of (range 24) df).
    + apply f_equal, map_ext. intros h. unfold in_hour. f_equal.
      apply filter_ext. intros r. symmetry. apply same_key_Z.
    + apply NoDup_range.
    + intros r _. apply in_range. cbn. apply hour_bounds.
Qed.

Lemma hourly_dense_witness :
  In (9, 0) (hourly scenario_C) /\ In (14, 5) (hourly scenario_C).
Proof.
  split.
  - apply (hourly_dense scenario_C); [lia | reflexivity].
  - vm_compute. tauto.
Defined.

(** ** Extremes *)

Section FirstExtreme.
Variable key : Transaction -> Z.

(** Scanning [rest] from a current best row: the row that is kept is
    the first row of largest key. *)
Lemma scan_first_largest (rest : list Transaction) :
  forall (pre : list Transaction) (best : Transaction) (mid : list Transaction),
    (forall x, In x pre -> key x < key best) ->
    (forall x, In x mid -> key x <= key best) ->
    exists before after,
      pre ++ best :: mid ++ rest
      = before
          ++ fold_left (fun b x => if key b <? key x then x else b) rest best
          :: after
      /\ (forall x, In x before ->
            key x < key (fold_left (fun b x => if key b <? key x then x else b)
                                   rest best))
      /\ (forall x, In x after ->
            key x <= key (fold_left (fun b x => if key b <? key x then x else b)
                                    rest best)).
Proof.
  induction rest as [|x rest IH]; intros pre best mid Hpre Hmid.
  - exists pre, mid. cbn. rewrite app_nil_r. auto.
  - cbn [fold_left]. destruct (key best <? key x) eqn:E.
    + apply Z.ltb_lt in E.
      destruct (IH (pre ++ best :: mid) x []) as [before [after [H1 [H2 H3]]]].
      * intros y Hy. apply in_app_or in Hy. destruct Hy as [Hy|[<-|Hy]].
        -- specialize (Hpre y Hy). lia.
        -- exact E.
        -- specialize (Hmid y Hy). lia.
      * intros y [].
      * exists before, after. split; [|auto].
        rewrite <- H1. cbn [app]. rewrite <- app_assoc. reflexivity.
    + apply Z.ltb_ge in E.
      destruct (IH pre best (mid ++ [x])) as [before [after [H1 [H2 H3]]]].
      * exact Hpre.
      * intros y Hy. apply in_app_or in Hy. destruct Hy as [Hy|[<-|[]]]; auto.
      * exists before, after. split; [|auto].
        rewrite <- H1. rewrite <- app_assoc. reflexivity.
Qed.
End FirstExtreme.

Lemma nlargest1_first (df : DataFrame) :
  df <> [] ->
  exists before t after,
    df = before ++ t :: after
    /\ nlargest1 df = [t]
    /\ (forall x, In x before -> amount x < amount t)
    /\ (forall x, In x after -> amount x <= amount t).
Proof.
  destruct df as [|r rest]; [congruence|]. intros _.
  destruct (scan_first_largest amount rest [] r []) as [before [after [H1 [H2 H3]]]];
    try (intros ? []).
  exists before; eexists; exists after. cbn [app] in H1. split; [exact H1|].
  split; [reflexivity|]. auto.
Qed.

Lemma nsmallest1_first (df : DataFrame) :
  df <> [] ->
  exists before t after,
    df = before ++ t :: after
    /\ nsmallest1 df = [t]
    /\ (forall x, In x before -> amount t < amount x)
    /\ (forall x, In x after -> amount t <= amount x).
Proof.
  destruct df as [|r rest]; [congruence|]. intros _.
  assert (Hfold : forall l b,
             fold_left (fun best x => if amount x <? amount best then x else best) l b
             = fold_left (fun b x => if - amount b <? - amount x then x else b) l b).
  { induction l as [|x l IH]; intros b; [reflexivity|]. cbn [fold_left].
    rewrite IH. f_equal.
    destruct (amount x <? amount b) eqn:E1, (- amount b <? - amount x) eqn:E2;
      try reflexivity;
      rewrite ?Z.ltb_lt, ?Z.ltb_ge in *; lia. }
  destruct (scan_first_largest (fun r => - amount r) rest [] r [])
    as [before [after [H1 [H2 H3]]]]; try (intros ? []).
  cbn [app] in H1. rewrite <- Hfold in H1, H2, H3.
  exists before; eexists; exists after. split; [exact H1|].
  split; [reflexivity|].
  split; intros x Hx; [specialize (H2 x Hx) | specialize (H3 x Hx)]; lia.
Qed.

(** A row of a filtered table sits in the table itself, with the rows
    before it and after it filtered on either side. *)
Lemma filter_split {A : Type} (p : A -> bool) (l : list A) :
  forall l1 x l2,
    filter p l = l1 ++ x :: l2 ->
    exists b a, l = b ++ x :: a /\ filter p b = l1 /\ filter p a = l2.
Proof.
  induction l as [|y l IH]; intros l1 x l2 H.
  - destruct l1; discriminate H.
  - cbn [filter] in H. destruct (p y) eqn:E.
    + destruct l1 as [|z l1]; cbn [app] in H; inversion H; subst.
      * exists [], l. split; [reflexivity|]. split; reflexivity.
      * destruct (IH _ _ _ H2) as [b [a [Hl [Hb Ha]]]].
        exists (z :: b), a. subst l. split; [reflexivity|].
        split; [|exact Ha]. cbn [filter]. now rewrite E, Hb.
    + destruct (IH _ _ _ H) as [b [a [Hl [Hb Ha]]]].
      exists (y :: b), a. subst l. split; [reflexivity|].
      split; [|exact Ha]. cbn [filter]. now rewrite E.
Qed.

(** C8. [extremes] returns at most one row on each side.  When the table
    has a row with [amount > 0], the largest deposit is a row of the
    table with a positive amount that no row exceeds, and it is the
    first such row: every row before it has a smaller amount.  When the
    table has a row with [amount < 0], the largest withdrawal is the
    first row of the table of least amount, and that amount is negative.
    When no row has [amount > 0] (resp. [amount < 0]) the result of that
    side is empty, not an error. *)
Theorem extremes_first_occurrence (df : DataFrame) :
  ((forall r, In r df -> amount r <= 0) -> largest_deposit (extremes df) = [])
  /\ ((forall r, In r df -> 0 <= amount r) ->
      largest_withdrawal (extremes df) = [])
  /\ ((exists r, In r df /\ 0 < amount r) ->
      exists before t after,
        df = before ++ t :: after
        /\ largest_deposit (extremes df) = [t]
        /\ 0 < amount t
        /\ (forall x, In x before -> amount x < amount t)
        /\ (forall x, In x after -> amount x <= amount t))
  /\ ((exists r, In r df /\ amount r < 0) ->
      exists before t after,
        df = before ++ t :: after
        /\ largest_withdrawal (extremes df) = [t]
        /\ amount t < 0
        /\ (forall x, In x before -> amount t < amount x)
        /\ (forall x, In x after -> amount t <= amount x)).
Proof.
  unfold extremes. cbn [largest_deposit largest_withdrawal].
  split; [|split; [|split]].
  - intros H. unfold positive. rewrite filter_none; [reflexivity|].
    intros r Hr. apply Z.ltb_ge. now apply H.
  - intros H. unfold negative. rewrite filter_none; [reflexivity|].
    intros r Hr. apply Z.ltb_ge. now apply H.
  - intros [r [Hr Hpos]].
    assert (Hne : positive df <> []).
    { intros E. assert (Hin : In r (positive df))
        by (apply filter_In; split; [exact Hr | now apply Z.ltb_lt]).
      rewrite E in Hin. destruct Hin. }
    destruct (nlargest1_first _ Hne) as [pb [t [pa [Hdf [Ht [Hb Ha]]]]]].
    assert (Htpos : 0 < amount t).
    { assert (Hin : In t (positive df)) by (rewrite Hdf; apply in_elt).
      apply filter_In in Hin. destruct Hin as [_ Hin]. now apply Z.ltb_lt. }
    destruct (filter_split _ _ _ _ _ Hdf) as [b [a [Hl [Hfb Hfa]]]].
    exists b, t, a. split; [exact Hl|]. split; [exact Ht|].
    split; [exact Htpos|]. split; intros x Hx.
    + destruct (0 <? amount x) eqn:E.
      * apply Hb. rewrite <- Hfb. apply filter_In. now split.
      * apply Z.ltb_ge in E. lia.
    + destruct (0 <? amount x) eqn:E.
      * apply Ha. rewrite <- Hfa. apply filter_In. now split.
      * apply Z.ltb_ge in E. lia.
  - intros [r [Hr Hneg]].
    assert (Hne : negative df <> []).
    { intros E. assert (Hin : In r (negative df))
        by (apply filter_In; split; [exact Hr | now apply Z.ltb_lt]).
      rewrite E in Hin. destruct Hin. }
    destruct (nsmallest1_first _ Hne) as [pb [t [pa [Hdf [Ht [Hb Ha]]]]]].
    assert (Htneg : amount t < 0).
    { assert (Hin : In t (negative df)) by (rewrite Hdf; apply in_elt).
      apply filter_In in Hin. destruct Hin as [_ Hin]. now apply Z.ltb_lt. }
    destruct (filter_split _ _ _ _ _ Hdf) as [b [a [Hl [Hfb Hfa]]]].
    exists b, t, a. split; [exact Hl|]. split; [exact Ht|].
    split; [exact Htneg|]. split; intros x Hx.
    + destruct (amount x <? 0) eqn:E.
      * apply Hb. rewrite <- Hfb. apply filter_In. now split.
      * apply Z.ltb_ge in E. lia.
    + destruct (amount x <? 0) eqn:E.
      * apply Ha. rewrite <- Hfa. apply filter_In. now split.
      * apply Z.ltb_ge in E. lia.
Qed.

Lemma extremes_first_occurrence_witness :
  largest_deposit (extremes scenario_B) = []
  /\ exists before t after,
       tied_extremes = before ++ t :: after
       /\ largest_withdrawal (extremes tied_extremes) = [t]
       /\ amount t < 0
       /\ (forall x, In x before -> amount t < amount x)
       /\ (forall x, In x after -> amount t <= amount x).
Proof.
  split.
  - apply (extremes_first_occurrence scenario_B).
    intros r [<-|[]]. discriminate.
  - apply (extremes_first_occurrence tied_extremes).
    exists (mkTx (at_ 20000 12) (-30) "US" "EFT"). split; [|reflexivity].
    cbn. tauto.
Defined.

(** On a table with two deposits of 70 and two withdrawals of -30, the
    earlier row of each pair is returned. *)
Example extremes_tied :
  largest_deposit (extremes tied_extremes)
  = [mkTx (at_ 20000 9) 70 "ZA" "EFT"]
  /\ largest_withdrawal (extremes tied_extremes)
     = [mkTx (at_ 20000 10) (-30) "ZA" "ATM"].
Proof. split; reflexivity. Qed.

(** ** sort_values *)

Lemma StronglySorted_app {A : Type} (R : A -> A -> Prop) (l1 l2 : list A) :
  StronglySorted R l1 -> StronglySorted R l2 ->
  (forall a b, In a l1 -> In b l2 -> R a b) ->
  StronglySorted R (l1 ++ l2).
Proof.
  induction l1 as [|x l1 IH]; intros H1 H2 H12; [exact H2|].
  apply StronglySorted_inv in H1. destruct H1 as [H1 Hx].
  cbn. constructor.
  - apply IH; auto. intros a b Ha Hb. apply H12; [now right | exact Hb].
  - apply Forall_app. split; [exact Hx|].
    apply Forall_forall. intros b Hb. apply H12; [now left | exact Hb].
Qed.

Lemma StronglySorted_rev {A : Type} (R : A -> A -> Prop) (l : list A) :
  StronglySorted R l -> StronglySorted (fun a b => R b a) (rev l).
Proof.
  induction 1 as [|x l Hs IH Hx]; cbn; [constructor|].
  apply StronglySorted_app; [exact IH | repeat constructor |].
  intros a b Ha [<-|[]]. apply in_rev in Ha.
  rewrite Forall_forall in Hx. now apply Hx.
Qed.

Lemma StronglySorted_filter {A : Type} (R : A -> A -> Prop) (p : A -> bool)
      (l : list A) :
  StronglySorted R l -> StronglySorted R (filter p l).
Proof.
  induction 1 as [|x l Hs IH Hx]; cbn; [constructor|].
  destruct (p x); [|exact IH]. constructor; [exact IH|].
  rewrite Forall_forall in *. intros y Hy. apply filter_In in Hy. now apply Hx.
Qed.

Lemma StronglySorted_map {A B : Type} (R : B -> B -> Prop) (f : A -> B)
      (l : list A) :
  StronglySorted R (map f l) <-> StronglySorted (fun a b => R (f a) (f b)) l.
Proof.
  induction l as [|x l IH]; cbn; [split; constructor|]. split; intros H.
  - apply StronglySorted_inv in H. destruct H as [H Hx]. constructor; [now apply IH|].
    rewrite Forall_forall in *. intros y Hy. apply Hx. now apply in_map.
  - apply StronglySorted_inv in H. destruct H as [H Hx]. constructor; [now apply IH|].
    rewrite Forall_forall in *. intros y Hy. apply in_map_iff in Hy.
    destruct Hy as [a [<- Ha]]. now apply Hx.
Qed.

Section SortFacts.
Context {A : Type} (by_ : A -> Z).

Lemma insert_sorted_perm (x : A) (l : list A) :
  Permutation (insert_sorted by_ x l) (x :: l).
Proof.
  induction l as [|y l IH]; cbn; [apply Permutation_refl|].
  destruct (by_ x <=? by_ y); [apply Permutation_refl|].
  transitivity (y :: x :: l); [now constructor | apply perm_swap].
Qed.

Lemma argsort_perm (l : list A) : Permutation (argsort by_ l) l.
Proof.
  induction l as [|x l IH]; cbn; [constructor|].
  transitivity (x :: argsort by_ l); [apply insert_sorted_perm | now constructor].
Qed.

Lemma insert_sorted_sorted (x : A) (l : list A) :
  StronglySorted (fun a b => by_ a <= by_ b) l ->
  StronglySorted (fun a b => by_ a <= by_ b) (insert_sorted by_ x l).
Proof.
  induction 1 as [|y l Hs IH Hy]; cbn; [repeat constructor|].
  destruct (by_ x <=? by_ y) eqn:E.
  - apply Z.leb_le in E. constructor; [now constructor|].
    constructor; [exact E|].
    rewrite Forall_forall in *. intros z Hz. specialize (Hy z Hz). lia.
  - apply Z.leb_gt in E. constructor; [exact IH|].
    rewrite Forall_forall in *. intros z Hz.
    apply (Permutation_in _ (insert_sorted_perm x l)) in Hz.
    destruct Hz as [<-|Hz]; [lia | now apply Hy].
Qed.

Lemma argsort_sorted (l : list A) :
  StronglySorted (fun a b => by_ a <= by_ b) (argsort by_ l).
Proof.
  induction l as [|x l IH]; cbn; [constructor | now apply insert_sorted_sorted].
Qed.

(** The sort is stable: rows of one and the same key keep their order. *)
Lemma insert_sorted_stable (v : Z) (x : A) (l : list A) :
  filter (fun a => by_ a =? v) (insert_sorted by_ x l)
  = filter (fun a => by_ a =? v) (x :: l).
Proof.
  induction l as [|y l IH]; [reflexivity|].
  cbn [insert_sorted]. destruct (by_ x <=? by_ y) eqn:E; [reflexivity|].
  apply Z.leb_gt in E. cbn [filter] in *. rewrite IH.
  destruct (by_ x =? v) eqn:Ex, (by_ y =? v) eqn:Ey; try reflexivity.
  apply Z.eqb_eq in Ex, Ey. lia.
Qed.

Lemma argsort_stable (v : Z) (l : list A) :
  filter (fun a => by_ a =? v) (argsort by_ l) = filter (fun a => by_ a =? v) l.
Proof.
  induction l as [|x l IH]; [reflexivity|].
  cbn [argsort fold_right]. fold (argsort by_ l).
  rewrite insert_sorted_stable. cbn [filter]. now rewrite IH.
Qed.

Lemma sort_values_perm (asc : bool) (l : list A) :
  Permutation (sort_values by_ asc l) l.
Proof.
  unfold sort_values. destruct asc; [apply argsort_perm|].
  rewrite <- Permutation_rev. rewrite argsort_perm. symmetry. apply Permutation_rev.
Qed.

Lemma sort_values_descending (l : list A) :
  StronglySorted (fun a b => by_ b <= by_ a) (sort_values by_ false l).
Proof.
  unfold sort_values.
  apply (StronglySorted_rev (fun a b => by_ a <= by_ b)), argsort_sorted.
Qed.

Lemma sort_values_stable (asc : bool) (v : Z) (l : list A) :
  filter (fun a => by_ a =? v) (sort_values by_ asc l)
  = filter (fun a => by_ a =? v) l.
Proof.
  unfold sort_values. destruct asc; [apply argsort_stable|].
  rewrite filter_rev, argsort_stable, filter_rev. apply rev_involutive.
Qed.
End SortFacts.

(** ** Ordered group keys *)

Section GroupByOrder.
Context {K : Type} (cmp : K -> K -> comparison).
Hypothesis cmp_eq : forall a b, cmp a b = Eq <-> a = b.
Hypothesis cmp_trans : forall a b c, cmp a b = Lt -> cmp b c = Lt -> cmp a c = Lt.
Hypothesis cmp_gt : forall a b, cmp a b = Gt -> cmp b a = Lt.

Lemma insert_key_sorted (k : K) (ks : list K) :
  StronglySorted (fun a b => cmp a b = Lt) ks ->
  StronglySorted (fun a b => cmp a b = Lt) (insert_key cmp k ks).
Proof.
  induction 1 as [|k' ks Hs IH Hk']; cbn; [repeat constructor|].
  destruct (cmp k k') eqn:E.
  - now constructor.
  - constructor; [now constructor|]. constructor; [exact E|].
    rewrite Forall_forall in *. intros z Hz. eapply cmp_trans; eauto.
  - constructor; [exact IH|].
    rewrite Forall_forall in *. intros z Hz.
    apply (in_insert_key cmp cmp_eq) in Hz. destruct Hz as [->|Hz]; auto.
Qed.

Lemma sorted_keys_sorted (ks : list K) :
  StronglySorted (fun a b => cmp a b = Lt) (sorted_keys cmp ks).
Proof.
  induction ks as [|k ks IH]; cbn; [constructor | now apply insert_key_sorted].
Qed.

Lemma sorted_keys_NoDup (ks : list K) : NoDup (sorted_keys cmp ks).
Proof.
  induction (sorted_keys_sorted ks) as [|k l Hs IH Hk]; constructor; [|exact IH].
  intros Hin. rewrite Forall_forall in Hk. specialize (Hk k Hin).
  assert (cmp k k = Eq) by now apply cmp_eq. congruence.
Qed.
(** A strictly ascending list is determined by its elements. *)
Lemma strictly_sorted_ext (l l' : list K) :
  StronglySorted (fun a b => cmp a b = Lt) l ->
  StronglySorted (fun a b => cmp a b = Lt) l' ->
  (forall x, In x l <-> In x l') -> l = l'.
Proof.
  assert (Hirr : forall a, cmp a a <> Lt).
  { intros a H. assert (cmp a a = Eq) by now apply cmp_eq. congruence. }
  intros Hs. revert l'. induction Hs as [|x l Hs IH Hx]; intros l' Hs' Hin.
  - destruct l' as [|y l']; [reflexivity|].
    exfalso. apply (Hin y). now left.
  - destruct l' as [|y l'].
    + exfalso. apply (Hin x). now left.
    + apply StronglySorted_inv in Hs'. destruct Hs' as [Hs' Hy].
      rewrite Forall_forall in Hx, Hy.
      assert (Exy : x = y).
      { destruct (proj1 (Hin x) (or_introl eq_refl)) as [E|Hx']; [now symmetry|].
        destruct (proj2 (Hin y) (or_introl eq_refl)) as [E|Hy']; [exact E|].
        exfalso. apply (Hirr x). apply (cmp_trans x y x); auto. }
      subst y. f_equal. apply IH; [exact Hs'|].
      intros z. split; intros Hz.
      * destruct (proj1 (Hin z) (or_intror Hz)) as [E|Hz']; [|exact Hz'].
        subst z. exfalso. apply (Hirr x). now apply Hx.
      * destruct (proj2 (Hin z) (or_intror Hz)) as [E|Hz']; [|exact Hz'].
        subst z. exfalso. apply (Hirr x). now apply Hy.
Qed.

(** The group keys only depend on which keys occur. *)
Lemma sorted_keys_ext (ks ks' : list K) :
  (forall x, In x ks <-> In x ks') -> sorted_keys cmp ks = sorted_keys cmp ks'.
Proof.
  intros H. apply strictly_sorted_ext; try apply sorted_keys_sorted.
  intros x. rewrite !(in_sorted_keys cmp cmp_eq). apply H.
Qed.
End GroupByOrder.

Lemma string_cmp_eq (a b : string) : String_as_OT.compare a b = Eq <-> a = b.
Proof.
  split.
  - intros H. destruct (String_as_OT.compare_spec a b); congruence.
  - intros ->. destruct (String_as_OT.compare_spec b b) as [E|E|E];
      [reflexivity | |]; exfalso; exact (StrictOrder_Irreflexive _ E).
Qed.

Lemma string_cmp_trans (a b c : string) :
  String_as_OT.compare a b = Lt -> String_as_OT.compare b c = Lt ->
  String_as_OT.compare a c = Lt.
Proof. apply (@StrictOrder_Transitive _ _ String_as_OT.lt_strorder). Qed.

Lemma string_cmp_gt (a b : string) :
  String_as_OT.compare a b = Gt -> String_as_OT.compare b a = Lt.
Proof.
  intros H. destruct (String_as_OT.compare_spec a b) as [E|E|E];
    first [exact E | congruence].
Qed.

Lemma same_key_string (a b : string) :
  same_key String_as_OT.compare a b = String.eqb a b.
Proof.
  apply eq_true_iff_eq.
  rewrite (same_key_iff String_as_OT.compare string_cmp_eq), String.eqb_eq.
  tauto.
Qed.

(** ** Channel mix *)

(** The insertion sort is one admissible sort. *)
Lemma sort_values_sorts : sorts (@sort_values).
Proof.
  intros A by_ asc l. split; [apply sort_values_perm|].
  unfold sort_values, ordered_by. destruct asc.
  - apply argsort_sorted.
  - apply (StronglySorted_rev (fun a b => by_ a <= by_ b)), argsort_sorted.
Qed.

(** The table is the sort of one row per channel. *)
Lemma channel_mix_rows (sort_by : Sorter) (df : DataFrame) :
  channel_mix sort_by df
  = sort_by MixRow (fun r : MixRow => value (snd r)) false
      (map (fun c => (c, {| count := len (of_channel c df);
                            value := Z.abs (sum (amounts (of_channel c df))) |}))
           (sorted_keys String_as_OT.compare (map channel df))).
Proof.
  unfold channel_mix, groupby. rewrite !map_map. cbn [fst snd count value].
  apply (f_equal (sort_by MixRow (fun r : MixRow => value (snd r)) false)).
  apply map_ext. intros c.
  rewrite (filter_ext (fun r => same_key String_as_OT.compare (channel r) c)
                      (fun r => String.eqb (channel r) c))
    by (intros; apply same_key_string).
  fold (of_channel c df). rewrite Z.abs_eq by apply len_nonneg. reflexivity.
Qed.

(** C4, as the code computes it.  Whatever the sort behind
    [sort_values] does with equal keys: [channel_mix] has exactly one
    row per channel that occurs in the table; the row of a channel holds
    the number of its transactions and the absolute value of their
    summed signed amounts; rows are sorted by value, largest first; the
    counts add up to the number of transactions.  Nothing is said of the
    order among rows of equal value. *)
Theorem channel_mix_table (sort_by : Sorter) (df : DataFrame) :
  sorts sort_by ->
  NoDup (map fst (channel_mix sort_by df))
  /\ (forall c, In c (map fst (channel_mix sort_by df)) <-> In c (map channel df))
  /\ (forall c cv, In (c, cv) (channel_mix sort_by df) ->
        cv = {| count := len (of_channel c df);
                value := Z.abs (sum (amounts (of_channel c df))) |})
  /\ value_descending (channel_mix sort_by df)
  /\ sum (map (fun r => count (snd r)) (channel_mix sort_by df)) = len df.
Proof.
  intros Hsort. rewrite channel_mix_rows.
  set (keys := sorted_keys String_as_OT.compare (map channel df)).
  set (rows := map (fun c => (c, {| count := len (of_channel c df);
                  value := Z.abs (sum (amounts (of_channel c df))) |})) keys).
  destruct (Hsort MixRow (fun r : MixRow => value (snd r)) false rows)
    as [Hperm Hsorted].
  assert (Hfst : map fst rows = keys).
  { unfold rows. rewrite map_map. cbn [fst]. apply map_id. }
  assert (Hnd : NoDup keys).
  { apply (sorted_keys_NoDup _ string_cmp_eq string_cmp_trans string_cmp_gt). }
  split; [|split; [|split; [|split]]].
  - apply (Permutation_NoDup (l := map fst rows)).
    + symmetry. now apply Permutation_map.
    + now rewrite Hfst.
  - intros c. rewrite <- (in_sorted_keys _ string_cmp_eq c (map channel df)).
    fold keys. rewrite <- Hfst. split; apply Permutation_in.
    + now apply Permutation_map.
    + symmetry. now apply Permutation_map.
  - intros c cv Hin. apply (Permutation_in _ Hperm) in Hin.
    unfold rows in Hin. apply in_map_iff in Hin. destruct Hin as [c' [E _]].
    now inversion E.
  - exact Hsorted.
  - rewrite (sum_perm _ _ (Permutation_map _ Hperm)).
    unfold rows. rewrite map_map. cbn [snd count].
    rewrite <- (groups_cover _ string_cmp_eq channel keys df Hnd).
    + apply f_equal, map_ext. intros c. unfold of_channel. f_equal.
      apply filter_ext. intros r. symmetry. apply same_key_string.
    + intros r Hr. apply (in_sorted_keys _ string_cmp_eq). now apply in_map.
Qed.

Lemma channel_mix_table_witness :
  sorts (@sort_values)
  /\ value_descending (channel_mix (@sort_values) tied_channels)
  /\ sum (map (fun r => count (snd r)) (channel_mix (@sort_values) tied_channels))
     = len tied_channels.
Proof.
  split; [exact sort_values_sorts|].
  split; apply (channel_mix_table (@sort_values) tied_channels);
    exact sort_values_sorts.
Defined.

(** Scenario D: "ATM" with net -500 over 3 rows, "EFT" with net +1000
    over 2 rows. *)
Example channel_mix_scenario_D :
  channel_mix (@sort_values)
              [ mkTx (at_ 20000 9) (-100) "ZA" "ATM";
                mkTx (at_ 20000 10) 400 "ZA" "EFT";
                mkTx (at_ 20001 9) (-300) "ZA" "ATM";
                mkTx (at_ 20002 9) 600 "US" "EFT";
                mkTx (at_ 20003 9) (-100) "ZA" "ATM" ]
  = [ ("EFT"%string, {| count := 2; value := 1000 |});
      ("ATM"%string, {| count := 3; value := 500 |}) ].
Proof. reflexivity. Qed.

(** The two tables of tied channels reach the sort as the same rows,
    "ATM" first: [groupby] has already put the groups in key order. *)
Lemma tied_channels_same_rows (sort_by : Sorter) :
  channel_mix sort_by tied_channels
  = sort_by MixRow (fun r : MixRow => value (snd r)) false
      [ ("ATM"%string, {| count := 1; value := 10 |});
        ("EFT"%string, {| count := 1; value := 10 |}) ]
  /\ channel_mix sort_by tied_channels_swapped
     = sort_by MixRow (fun r : MixRow => value (snd r)) false
         [ ("ATM"%string, {| count := 1; value := 10 |});
           ("EFT"%string, {| count := 1; value := 10 |}) ].
Proof. split; reflexivity. Qed.

(** C4 as stated does not hold: "EFT" is met before "ATM" in one table
    and after it in the other, both channels have value 10 in both, and
    the two tables give the same result; so whatever the sort does with
    equal values, the tie is not in encounter order in one of them. *)
Lemma channel_mix_ties_not_by_encounter :
  ~ (exists sort_by : Sorter,
        sorts sort_by
        /\ ties_ordered (encounter_order tied_channels)
                        (channel_mix sort_by tied_channels)
        /\ ties_ordered (encounter_order tied_channels_swapped)
                        (channel_mix sort_by tied_channels_swapped)).
Proof.
  intros [sort_by [Hsort [H1 H2]]].
  destruct (tied_channels_same_rows sort_by) as [E1 E2].
  rewrite E1 in H1. rewrite E2 in H2.
  destruct (Hsort MixRow (fun r : MixRow => value (snd r)) false
              [ ("ATM"%string, {| count := 1; value := 10 |});
                ("EFT"%string, {| count := 1; value := 10 |}) ])
    as [Hperm _].
  apply Permutation_sym, Permutation_length_2_inv in Hperm.
  specialize (H1 10). specialize (H2 10).
  destruct Hperm as [E|E]; rewrite E in H1, H2.
  - cbn [filter snd value Z.eqb Pos.eqb] in H1.
    apply StronglySorted_inv in H1. destruct H1 as [_ H1].
    apply Forall_inv in H1. unfold encounter_order in H1. cbn in H1. lia.
  - cbn [filter snd value Z.eqb Pos.eqb] in H2.
    apply StronglySorted_inv in H2. destruct H2 as [_ H2].
    apply Forall_inv in H2. unfold encounter_order in H2. cbn in H2. lia.
Qed.

(** ** Imbalance spotlight *)

Lemma inject_Z_nonzero (z : Z) : z <> 0 -> Qeq_bool (inject_Z z) 0 = false.
Proof.
  intros H. destruct (Qeq_bool (inject_Z z) 0) eqn:E; [|reflexivity].
  apply Qeq_bool_iff in E. unfold Qeq in E. cbn in E. lia.
Qed.

(** C3. With [dep] the sum of the positive amounts of the window and
    [wd] the magnitude of the sum of its negative amounts: [dep] is never
    negative; when [dep] is 0 the imbalance spotlight is flag true with
    ratio positive infinity; when [dep > 0] the ratio is [wd / dep] and
    the flag is true exactly when that ratio exceeds 1.2. *)
Theorem imbalance_rule (df_win df_hist : DataFrame) :
  let dep := sum (amounts (positive df_win)) in
  let wd := Z.abs (sum (amounts (negative df_win))) in
  0 <= dep
  /\ (dep = 0 ->
      imbalance (spotlights df_win df_hist)
      = {| imbalance_flag := true; ratio := PInf |})
  /\ (0 < dep ->
      ratio (imbalance (spotlights df_win df_hist))
      = Fin (Qred (inject_Z wd / inject_Z dep))
      /\ (imbalance_flag (imbalance (spotlights df_win df_hist)) = true
          <-> (12 # 10 < inject_Z wd / inject_Z dep)%Q)).
Proof.
  intros dep wd. split; [apply sum_positive_nonneg|]. split.
  - intros H. unfold spotlights. cbn [imbalance]. fold dep. now rewrite H.
  - intros H. unfold spotlights. cbn [imbalance imbalance_flag ratio].
    fold dep wd.
    assert (Hne : (dep =? 0) = false) by (apply Z.eqb_neq; lia).
    rewrite Hne. cbn [negb]. unfold of_int, fdiv.
    rewrite inject_Z_nonzero by lia. split; [reflexivity|].
    unfold fgt, one_point_two. rewrite negb_true_iff.
    rewrite <- not_true_iff_false, Qle_bool_iff, Qred_correct.
    split; [apply Qnot_le_lt | apply Qlt_not_le].
Qed.

Lemma imbalance_rule_witness :
  imbalance (spotlights scenario_B scenario_B)
  = {| imbalance_flag := true; ratio := PInf |}
  /\ ratio (imbalance (spotlights scenario_A scenario_A)) = Fin (1 # 12).
Proof.
  split.
  - apply (imbalance_rule scenario_B scenario_B). reflexivity.
  - apply (imbalance_rule scenario_A scenario_A). reflexivity.
Defined.

(** ** Burst spotlight *)

(** The score is [win_max / max(hist_med, 1)] and the flag is
    [score > 3], with Python's [max] and NumPy's division. *)
Lemma burst_formula (df_win df_hist : DataFrame) :
  score (burst (spotlights df_win df_hist))
  = fdiv (win_max df_win) (py_max (hist_med df_win df_hist) (of_int 1))
  /\ burst_flag (burst (spotlights df_win df_hist))
     = fgt (score (burst (spotlights df_win df_hist))) three.
Proof. split; reflexivity. Qed.

(** Python's [max] keeps a [NaN] first argument. *)
Lemma py_max_nan (b : pyfloat) : py_max NaN b = NaN.
Proof. unfold py_max. now destruct b. Qed.

Lemma fdiv_nan (a : pyfloat) : fdiv a NaN = NaN.
Proof. now destruct a. Qed.

(** Called with a history that holds no row of the trailing period
    (a history that does not contain the window): [hist_med] is the
    median of an empty series, [NaN]; [max(NaN, 1)] is [NaN]; the score
    is [NaN] and the flag is false, whatever [win_max] is. *)
Lemma burst_without_history (df_win df_hist : DataFrame) :
  recent_history df_win df_hist = [] ->
  hist_med df_win df_hist = NaN
  /\ burst (spotlights df_win df_hist) = {| burst_flag := false; score := NaN |}.
Proof.
  intros H. unfold recent_history in H.
  assert (Hm : hist_med df_win df_hist = NaN).
  { unfold hist_med. rewrite H. reflexivity. }
  split; [exact Hm|].
  unfold spotlights. cbn [burst]. rewrite Hm, py_max_nan, fdiv_nan. reflexivity.
Qed.

Example burst_without_history_scenario_C :
  hourly scenario_C
  = [(0, 0); (1, 0); (2, 0); (3, 0); (4, 0); (5, 0); (6, 0); (7, 0); (8, 0);
     (9, 0); (10, 0); (11, 0); (12, 0); (13, 0); (14, 5); (15, 0); (16, 0);
     (17, 0); (18, 0); (19, 0); (20, 0); (21, 0); (22, 0); (23, 0)]
  /\ win_max scenario_C = of_int 5
  /\ hist_med scenario_C [] = NaN
  /\ burst (spotlights scenario_C []) = {| burst_flag := false; score := NaN |}.
Proof.
  split; [reflexivity|]. split; [reflexivity|].
  apply (burst_without_history scenario_C []). reflexivity.
Qed.

(** Scenario C with the window as its own history (the history covers
    the window): the one occupied hour has count 5 in both, the score is
    1 and the flag is false. *)
Example burst_scenario_C_self_history :
  hist_med scenario_C scenario_C = of_int 5
  /\ burst (spotlights scenario_C scenario_C)
     = {| burst_flag := false; score := Fin 1 |}.
Proof. split; reflexivity. Qed.

(** ** value_counts and median *)

Lemma in_unique (x : Z) (l : list Z) : In x (unique l) <-> In x l.
Proof.
  induction l as [|y l IH]; cbn; [tauto|].
  rewrite filter_In, IH, negb_true_iff, Z.eqb_neq.
  destruct (Z.eq_dec y x); intuition congruence.
Qed.

Lemma NoDup_unique (l : list Z) : NoDup (unique l).
Proof.
  induction l as [|y l IH]; cbn; constructor.
  - rewrite filter_In, negb_true_iff, Z.eqb_neq. tauto.
  - now apply NoDup_filter.
Qed.

(** A constant non-empty column has a single distinct value. *)
Lemma unique_constant (h : Z) (l : list Z) :
  l <> [] -> (forall x, In x l -> x = h) -> unique l = [h].
Proof.
  induction l as [|y l IH]; intros Hne Hall; [congruence|].
  cbn. rewrite (Hall y (or_introl eq_refl)). f_equal.
  destruct l as [|z l]; [reflexivity|].
  rewrite IH; [| discriminate | intros x Hx; apply Hall; now right].
  cbn. now rewrite Z.eqb_refl.
Qed.

(** The counts of [value_counts], up to their order. *)
Lemma value_counts_counts (l : list Z) :
  Permutation (map snd (value_counts l))
              (map (fun k => len (filter (Z.eqb k) l)) (unique l)).
Proof.
  unfold value_counts.
  rewrite (Permutation_map snd (sort_values_perm snd false _)).
  rewrite map_map. cbn [snd]. apply Permutation_refl.
Qed.

(** Two sorted lists with the same elements are the same list. *)
Lemma sorted_perm_eq (l l' : list Z) :
  StronglySorted Z.le l -> StronglySorted Z.le l' -> Permutation l l' -> l = l'.
Proof.
  intros Hs. revert l'. induction Hs as [|x l Hs IH Hx]; intros l' Hs' Hp.
  - now apply Permutation_nil in Hp.
  - destruct l' as [|y l'].
    + symmetry in Hp. now apply Permutation_nil in Hp.
    + apply StronglySorted_inv in Hs'. destruct Hs' as [Hs' Hy].
      rewrite Forall_forall in Hx, Hy.
      assert (Exy : x = y).
      { assert (Hxin : In x (y :: l')) by (apply (Permutation_in _ Hp); now left).
        assert (Hyin : In y (x :: l))
          by (apply (Permutation_in _ (Permutation_sym Hp)); now left).
        destruct Hxin as [->|Hxin]; [reflexivity|].
        destruct Hyin as [->|Hyin]; [reflexivity|].
        specialize (Hx y Hyin). specialize (Hy x Hxin). lia. }
      subst y. f_equal. apply IH; [exact Hs'|].
      now apply Permutation_cons_inv in Hp.
Qed.

Lemma argsort_canonical (l l' : list Z) :
  Permutation l l' -> argsort (fun z => z) l = argsort (fun z => z) l'.
Proof.
  intros Hp. apply sorted_perm_eq.
  - apply (argsort_sorted (fun z => z)).
  - apply (argsort_sorted (fun z => z)).
  - rewrite !argsort_perm. exact Hp.
Qed.

(** The median only depends on the values, not on their order. *)
Lemma median_perm (l l' : list Z) : Permutation l l' -> median l = median l'.
Proof. intros Hp. unfold median. now rewrite (argsort_canonical l l' Hp). Qed.

Lemma median_single (c : Z) : median [c] = of_int c.
Proof. reflexivity. Qed.

Lemma len_filter_map {A : Type} (f : A -> Z) (p : Z -> bool) (l : list A) :
  len (filter (fun a => p (f a)) l) = len (filter p (map f l)).
Proof.
  induction l as [|a l IH]; [reflexivity|].
  cbn. destruct (p (f a)); rewrite ?len_cons; now rewrite IH.
Qed.

(** The number of rows in hour [h], read off the column of hours. *)
Lemma len_in_hour (h : Z) (df : DataFrame) :
  len (in_hour h df) = len (filter (Z.eqb h) (map hour_of df)).
Proof.
  unfold in_hour. rewrite <- (len_filter_map hour_of (Z.eqb h)).
  f_equal. apply filter_ext. intros r. apply Z.eqb_sym.
Qed.

(** The counts of [value_counts] on the hours of a table are the
    non-zero entries of its [hourly] vector. *)
Lemma value_counts_hourly (df : DataFrame) :
  Permutation (map snd (value_counts (map hour_of df)))
              (filter (fun c => 0 <? c) (map snd (hourly df))).
Proof.
  rewrite value_counts_counts, hourly_counts.
  rewrite map_map. cbn [snd]. rewrite filter_map_swap.
  rewrite (map_ext (fun h => len (in_hour h df))
                   (fun h => len (filter (Z.eqb h) (map hour_of df))))
    by (intros; apply len_in_hour).
  apply Permutation_map. apply NoDup_Permutation.
  - apply NoDup_unique.
  - apply NoDup_filter, NoDup_range.
  - intros h. rewrite in_unique, filter_In. cbv beta.
    rewrite Z.ltb_lt. split.
    + intros Hin. apply in_map_iff in Hin. destruct Hin as [r [<- Hr]]. split.
      * apply in_range. cbn. apply hour_bounds.
      * assert (Hin : In r (in_hour (hour_of r) df))
          by (apply filter_In; split; [exact Hr | apply Z.eqb_refl]).
        destruct (in_hour (hour_of r) df) as [|r' rows]; [destruct Hin|].
        rewrite len_cons. pose proof (len_nonneg rows). lia.
    + intros [_ Hpos]. destruct (in_hour h df) as [|r l] eqn:E; [cbn in Hpos; lia|].
      assert (Hin : In r (in_hour h df)) by (rewrite E; now left).
      apply filter_In in Hin. destruct Hin as [Hr Hh]. apply Z.eqb_eq in Hh.
      subst h. now apply in_map.
Qed.

(** [hist_med] is the median over the hour-of-day buckets that hold at
    least one row of the history that the rule reads: buckets without
    rows do not enter as zeros.  When these rows all fall in one hour of
    day, [hist_med] is the number of these rows. *)
Lemma hist_med_of_recent_history (df_win df_hist : DataFrame) :
  hist_med df_win df_hist
  = median (filter (fun c => 0 <? c)
                   (map snd (hourly (recent_history df_win df_hist))))
  /\ (forall h,
        recent_history df_win df_hist <> [] ->
        (forall r, In r (recent_history df_win df_hist) -> hour_of r = h) ->
        hist_med df_win df_hist = of_int (len (recent_history df_win df_hist))).
Proof.
  unfold hist_med. fold (recent_history df_win df_hist).
  set (recent := recent_history df_win df_hist).
  split.
  - apply median_perm, value_counts_hourly.
  - intros h Hne Hall.
    assert (Hu : unique (map hour_of recent) = [h]).
    { apply unique_constant.
      - destruct recent; [congruence | discriminate].
      - intros x Hx. apply in_map_iff in Hx. destruct Hx as [r [<- Hr]]. auto. }
    unfold value_counts. rewrite Hu. cbn [map sort_values rev argsort fold_right
                                           insert_sorted app snd].
    rewrite median_single. f_equal. rewrite <- len_in_hour.
    unfold in_hour. f_equal. apply filter_all.
    intros r Hr. apply Z.eqb_eq. auto.
Qed.

(** On scenario C as its own history, the median over the occupied
    buckets is 5, while a median over all 24 buckets would be 0. *)
Example hist_med_not_over_24_buckets :
  hist_med scenario_C scenario_C = of_int 5
  /\ median (map snd (hourly (recent_history scenario_C scenario_C))) = of_int 0.
Proof. split; reflexivity. Qed.

(** ** Serialization boundary *)

(** Induction on Python values, with the elements of lists and the
    members of dictionaries as induction hypotheses. *)
Section PyobjInduction.
Variable P : pyobj -> Prop.
Hypothesis HNone : P PyNone.
Hypothesis HBool : forall b, P (PyBool b).
Hypothesis HInt : forall z, P (PyInt z).
Hypothesis HFloat : forall f, P (PyFloat f).
Hypothesis HStr : forall s, P (PyStr s).
Hypothesis HList : forall l, Forall P l -> P (PyList l).
Hypothesis HDict : forall d, Forall (fun kx => P (snd kx)) d -> P (PyDict d).
Hypothesis HNpInt : forall z, P (NpInt z).
Hypothesis HNpFloat64 : forall f, P (NpFloat64 f).
Hypothesis HNpFloat32 : forall f, P (NpFloat32 f).
Hypothesis HNpBool : forall b, P (NpBool b).
Hypothesis HOther : forall n, P (PyOther n).

Lemma pyobj_nested_ind : forall o : pyobj, P o.
Proof.
  fix IH 1. intros o. destruct o as [ | b | z | f | s | l | d | z | f | f | b | n ].
  - exact HNone.
  - apply HBool.
  - apply HInt.
  - apply HFloat.
  - apply HStr.
  - apply HList. induction l as [|x l IHl]; constructor; [apply IH | exact IHl].
  - apply HDict. induction d as [|kx d IHd]; constructor; [apply IH | exact IHd].
  - apply HNpInt.
  - apply HNpFloat64.
  - apply HNpFloat32.
  - apply HNpBool.
  - apply HOther.
Qed.
End PyobjInduction.

Lemma json_dumps_unfold (default : option (pyobj -> option pyobj))
      (fuel : nat) (o : pyobj) :
  json_dumps default fuel o
  = encode (fun o' =>
              match default with
              | None => RaiseTypeError
              | Some f =>
                  match f o' with
                  | None => RaiseTypeError
                  | Some o'' =>
                      match fuel with
                      | O => OutOfFuel
                      | S n => json_dumps default n o''
                      end
                  end
              end) o.
Proof. destruct fuel; reflexivity. Qed.

(** With [default=to_builtin], a recognized value is encoded; a value
    that holds any other object raises [TypeError]. *)
Lemma dumps_recognized (n : nat) (o : pyobj) :
  (recognized o = true ->
   exists j, json_dumps (Some to_builtin) (S n) o = Ok j)
  /\ (recognized o = false ->
      json_dumps (Some to_builtin) (S n) o = RaiseTypeError).
Proof.
  rewrite !json_dumps_unfold.
  induction o as [ | b | z | f | s | l IH | d IH | z | f | f | b | name ]
    using pyobj_nested_ind;
    try (split; [intros _; eexists; reflexivity | discriminate]);
    try (split; [intros _; eexists; cbn; rewrite json_dumps_unfold; reflexivity
                | discriminate]).
  - cbn [encode recognized].
    induction IH as [|x l Hx _ IHl].
    + split; [intros _; eexists; reflexivity | discriminate].
    + destruct Hx as [Hx1 Hx2]. destruct IHl as [Hl1 Hl2].
      destruct (recognized x) eqn:Ex; cbn [andb].
      * destruct (Hx1 eq_refl) as [j Hj]. rewrite Hj. cbn [bind]. split.
        -- intros Hr. destruct (Hl1 Hr) as [js Hjs]. revert Hjs.
           match goal with
           | |- bind ?e _ = _ -> _ => destruct e; cbn [bind]; intros Hjs;
                                      try discriminate
           end.
           eexists. reflexivity.
        -- intros Hr. specialize (Hl2 Hr). revert Hl2.
           match goal with
           | |- bind ?e _ = _ -> _ => destruct e; cbn [bind]; intros Hjs;
                                      try discriminate
           end.
           reflexivity.
      * rewrite (Hx2 eq_refl). cbn [bind]. split; [discriminate | reflexivity].
  - cbn [encode recognized].
    induction IH as [|[k x] d Hx _ IHd].
    + split; [intros _; eexists; reflexivity | discriminate].
    + cbn [snd] in Hx. destruct Hx as [Hx1 Hx2]. destruct IHd as [Hd1 Hd2].
      destruct (recognized x) eqn:Ex; cbn [andb].
      * destruct (Hx1 eq_refl) as [j Hj]. rewrite Hj. cbn [bind]. split.
        -- intros Hr. destruct (Hd1 Hr) as [js Hjs]. revert Hjs.
           match goal with
           | |- bind ?e _ = _ -> _ => destruct e; cbn [bind]; intros Hjs;
                                      try discriminate
           end.
           eexists. reflexivity.
        -- intros Hr. specialize (Hd2 Hr). revert Hd2.
           match goal with
           | |- bind ?e _ = _ -> _ => destruct e; cbn [bind]; intros Hjs;
                                      try discriminate
           end.
           reflexivity.
      * rewrite (Hx2 eq_refl). cbn [bind]. split; [discriminate | reflexivity].
  - split; [discriminate | reflexivity].
Qed.

(** The payload of the dashboard, encoded through [to_builtin]. *)
Example sample_payload_encoded :
  json_dumps (Some to_builtin) 1 (narrative_payload sample_metrics sample_spots)
  = Ok (JObj
          [("metrics"%string,
            JObj [("totals"%string,
                   JObj [("deposits"%string,
                          JObj [("count"%string, JInt 3);
                                ("value"%string, JInt 600)])])]);
           ("spotlights"%string,
            JObj [("burst"%string,
                   JObj [("flag"%string, JBool false);
                         ("score"%string, JFloat (Fin 1))])])]).
Proof. reflexivity. Qed.

(** The prompt of [narrative] serializes the dictionary a second time,
    without [default]: on the same payload that second call raises. *)
Example narrative_prompt_second_dumps :
  narrative_prompt 1 sample_metrics sample_spots = RaiseTypeError.
Proof. reflexivity. Qed.

(** * Further properties of the code *)

(** ** Serialization without a [default] *)

Lemma dumps_none_unfold (n : nat) (o : pyobj) :
  json_dumps None n o = encode (fun _ => RaiseTypeError) o.
Proof. rewrite json_dumps_unfold. reflexivity. Qed.

Lemma dumps_plain (n : nat) (o : pyobj) :
  (plain o = true -> exists j, json_dumps None n o = Ok j)
  /\ (plain o = false -> json_dumps None n o = RaiseTypeError).
Proof.
  rewrite dumps_none_unfold.
  induction o as [ | b | z | f | s | l IH | d IH | z | f | f | b | name ]
    using pyobj_nested_ind;
    try (split; [intros _; eexists; reflexivity | discriminate]);
    try (split; [discriminate | reflexivity]).
  - cbn [encode plain].
    induction IH as [|x l Hx _ IHl].
    + split; [intros _; eexists; reflexivity | discriminate].
    + destruct Hx as [Hx1 Hx2]. destruct IHl as [Hl1 Hl2].
      destruct (plain x) eqn:Ex; cbn [andb].
      * destruct (Hx1 eq_refl) as [j Hj]. rewrite Hj. cbn [bind]. split.
        -- intros Hr. destruct (Hl1 Hr) as [js Hjs]. revert Hjs.
           match goal with
           | |- bind ?e _ = _ -> _ => destruct e; cbn [bind]; intros Hjs;
                                      try discriminate
           end.
           eexists. reflexivity.
        -- intros Hr. specialize (Hl2 Hr). revert Hl2.
           match goal with
           | |- bind ?e _ = _ -> _ => destruct e; cbn [bind]; intros Hjs;
                                      try discriminate
           end.
           reflexivity.
      * rewrite (Hx2 eq_refl). cbn [bind]. split; [discriminate | reflexivity].
  - cbn [encode plain].
    induction IH as [|[k x] d Hx _ IHd].
    + split; [intros _; eexists; reflexivity | discriminate].
    + cbn [snd] in Hx. destruct Hx as [Hx1 Hx2]. destruct IHd as [Hd1 Hd2].
      destruct (plain x) eqn:Ex; cbn [andb].
      * destruct (Hx1 eq_refl) as [j Hj]. rewrite Hj. cbn [bind]. split.
        -- intros Hr. destruct (Hd1 Hr) as [js Hjs]. revert Hjs.
           match goal with
           | |- bind ?e _ = _ -> _ => destruct e; cbn [bind]; intros Hjs;
                                      try discriminate
           end.
           eexists. reflexivity.
        -- intros Hr. specialize (Hd2 Hr). revert Hd2.
           match goal with
           | |- bind ?e _ = _ -> _ => destruct e; cbn [bind]; intros Hjs;
                                      try discriminate
           end.
           reflexivity.
      * rewrite (Hx2 eq_refl). cbn [bind]. split; [discriminate | reflexivity].
Qed.

Lemma plain_recognized (o : pyobj) : plain o = true -> recognized o = true.
Proof.
  induction o as [ | b | z | f | s | l IH | d IH | z | f | f | b | name ]
    using pyobj_nested_ind; try reflexivity; try discriminate.
  - cbn [plain recognized]. induction IH as [|x l Hx _ IHl]; [reflexivity|].
    intros H. apply andb_true_iff in H. destruct H as [H1 H2].
    rewrite (Hx H1). cbn [andb]. now apply IHl.
  - cbn [plain recognized]. induction IH as [|[k x] d Hx _ IHd]; [reflexivity|].
    intros H. apply andb_true_iff in H. destruct H as [H1 H2].
    cbn [snd] in Hx. rewrite (Hx H1). cbn [andb]. now apply IHd.
Qed.

(** X1. Without a [default], [json.dumps] succeeds exactly on the values
    made of builtin kinds and [np.float64] at every depth; a NumPy
    integer, a NumPy boolean, a [np.float32] or any other object
    anywhere in the value makes it raise [TypeError]. *)
Theorem dumps_without_default (n : nat) (o : pyobj) :
  (plain o = true <-> exists j, json_dumps None n o = Ok j)
  /\ (plain o = false <-> json_dumps None n o = RaiseTypeError).
Proof.
  destruct (dumps_plain n o) as [H1 H2]. split; split.
  - exact H1.
  - intros [j Hj]. destruct (plain o) eqn:E; [reflexivity|].
    rewrite (H2 eq_refl) in Hj. discriminate.
  - exact H2.
  - intros H. destruct (plain o) eqn:E; [|reflexivity].
    destruct (H1 eq_refl) as [j Hj]. congruence.
Qed.

Lemma dumps_without_default_witness :
  json_dumps None 0 (PyList [PyInt 1; NpInt 2]) = RaiseTypeError
  /\ exists j, json_dumps None 0 (PyList [PyInt 1; NpFloat64 (Fin 2)]) = Ok j.
Proof.
  split.
  - apply (dumps_without_default 0 (PyList [PyInt 1; NpInt 2])). reflexivity.
  - apply (dumps_without_default 0 (PyList [PyInt 1; NpFloat64 (Fin 2)])).
    reflexivity.
Defined.

(** X3. The prompt that [narrative] builds is the serialization without
    [default]: the [json_payload] built with [default=to_builtin] is not
    used, so a payload that holds a NumPy integer or boolean anywhere
    makes [narrative] raise [TypeError], and the prompt is produced
    exactly for payloads that needed no [to_builtin]. *)
Theorem narrative_prompt_without_hook (n : nat) (metrics spots : pyobj) :
  narrative_prompt (S n) metrics spots
  = json_dumps None (S n) (narrative_payload metrics spots)
  /\ (plain metrics && plain spots = false ->
      narrative_prompt (S n) metrics spots = RaiseTypeError)
  /\ (plain metrics && plain spots = true ->
      exists j, narrative_prompt (S n) metrics spots = Ok j).
Proof.
  assert (Heq : narrative_prompt (S n) metrics spots
                = json_dumps None (S n) (narrative_payload metrics spots)).
  { unfold narrative_prompt.
    destruct (dumps_recognized n (narrative_payload metrics spots)) as [H1 H2].
    destruct (recognized (narrative_payload metrics spots)) eqn:E.
    - destruct (H1 eq_refl) as [j Hj]. rewrite Hj. reflexivity.
    - rewrite (H2 eq_refl). cbn [bind]. symmetry.
      apply (dumps_plain (S n)).
      destruct (plain (narrative_payload metrics spots)) eqn:P; [|reflexivity].
      apply plain_recognized in P. congruence. }
  assert (Hp : plain (narrative_payload metrics spots)
               = plain metrics && plain spots).
  { cbn. now rewrite andb_true_r. }
  split; [exact Heq|]. rewrite Heq, <- Hp. split.
  - apply (dumps_plain (S n)).
  - apply (dumps_plain (S n)).
Qed.

Lemma narrative_prompt_without_hook_witness :
  narrative_prompt 1 sample_metrics sample_spots = RaiseTypeError
  /\ exists j, narrative_prompt 1 (PyDict [("n"%string, PyInt 3)]) PyNone = Ok j.
Proof.
  split.
  - apply (narrative_prompt_without_hook 0 sample_metrics sample_spots).
    reflexivity.
  - apply (narrative_prompt_without_hook 0 (PyDict [("n"%string, PyInt 3)]) PyNone).
    reflexivity.
Defined.

(** C9, what the code does.  On a payload that holds only recognized
    values, among them a NumPy integer, a NumPy boolean or a
    [np.float32]: the call that builds [json_payload] with
    [default=to_builtin] succeeds, but its result is not what goes into
    the prompt; the prompt serializes the dictionary again without
    [default], and that call raises [TypeError].  The NumPy scalars are
    not converted at the boundary that feeds the prompt. *)
Theorem narrative_discards_json_payload (n : nat) (metrics spots : pyobj) :
  recognized (narrative_payload metrics spots) = true ->
  plain (narrative_payload metrics spots) = false ->
  (exists j,
      json_dumps (Some to_builtin) (S n) (narrative_payload metrics spots) = Ok j)
  /\ json_dumps None (S n) (narrative_payload metrics spots) = RaiseTypeError
  /\ narrative_prompt (S n) metrics spots = RaiseTypeError.
Proof.
  intros Hrec Hplain.
  destruct (proj1 (dumps_recognized n (narrative_payload metrics spots)) Hrec)
    as [j Hj].
  pose proof (proj2 (dumps_plain (S n) (narrative_payload metrics spots)) Hplain)
    as Hraise.
  split; [now exists j|]. split; [exact Hraise|].
  unfold narrative_prompt. rewrite Hj. exact Hraise.
Qed.

Lemma narrative_discards_json_payload_witness :
  (exists j,
      json_dumps (Some to_builtin) 1 (narrative_payload sample_metrics sample_spots)
      = Ok j)
  /\ json_dumps None 1 (narrative_payload sample_metrics sample_spots)
     = RaiseTypeError
  /\ narrative_prompt 1 sample_metrics sample_spots = RaiseTypeError.
Proof.
  apply (narrative_discards_json_payload 0 sample_metrics sample_spots);
    reflexivity.
Defined.

(** ** Maxima and minima of a column *)

Lemma fold_max_spec (l : list Z) :
  forall x, (fold_left Z.max l x = x \/ In (fold_left Z.max l x) l)
            /\ x <= fold_left Z.max l x
            /\ (forall y, In y l -> y <= fold_left Z.max l x).
Proof.
  induction l as [|a l IH]; intros x; cbn [fold_left].
  - split; [now left|]. split; [lia | intros y []].
  - destruct (IH (Z.max x a)) as [H1 [H2 H3]]. split; [|split].
    + destruct H1 as [H1|H1]; [|right; now right].
      rewrite H1. destruct (Z.max_spec x a) as [[_ E]|[_ E]]; rewrite E.
      * right. now left.
      * now left.
    + lia.
    + intros y [<-|Hy]; [lia | now apply H3].
Qed.

Lemma fold_min_spec (l : list Z) :
  forall x, (fold_left Z.min l x = x \/ In (fold_left Z.min l x) l)
            /\ fold_left Z.min l x <= x
            /\ (forall y, In y l -> fold_left Z.min l x <= y).
Proof.
  induction l as [|a l IH]; intros x; cbn [fold_left].
  - split; [now left|]. split; [lia | intros y []].
  - destruct (IH (Z.min x a)) as [H1 [H2 H3]]. split; [|split].
    + destruct H1 as [H1|H1]; [|right; now right].
      rewrite H1. destruct (Z.min_spec x a) as [[_ E]|[_ E]]; rewrite E.
      * now left.
      * right. now left.
    + lia.
    + intros y [<-|Hy]; [lia | now apply H3].
Qed.

(** [series.max()] is an element of the column that bounds it. *)
Lemma series_max_spec (l : list Z) (m : Z) :
  series_max l = Some m -> In m l /\ (forall y, In y l -> y <= m).
Proof.
  destruct l as [|x l]; [discriminate|]. cbn [series_max].
  intros H. inversion H as [E]. clear H.
  destruct (fold_max_spec l x) as [H1 [H2 H3]]. split.
  - destruct H1 as [H1|H1]; [left; now rewrite H1 | now right].
  - intros y [<-|Hy]; [exact H2 | now apply H3].
Qed.

Lemma series_min_spec (l : list Z) (m : Z) :
  series_min l = Some m -> In m l /\ (forall y, In y l -> m <= y).
Proof.
  destruct l as [|x l]; [discriminate|]. cbn [series_min].
  intros H. inversion H as [E]. clear H.
  destruct (fold_min_spec l x) as [H1 [H2 H3]]. split.
  - destruct H1 as [H1|H1]; [left; now rewrite H1 | now right].
  - intros y [<-|Hy]; [exact H2 | now apply H3].
Qed.

Lemma series_max_none (l : list Z) : series_max l = None <-> l = [].
Proof. destruct l; cbn; split; congruence. Qed.

(** ** The date window of the dashboard *)

Lemma window_bounds_dates (win : Z * Z) (t : Z) :
  (window_start win <= t <= window_end win -> fst win <= date t <= snd win)
  /\ (whole_second t -> fst win <= date t <= snd win ->
      window_start win <= t <= window_end win).
Proof.
  unfold window_start, window_end, to_datetime, date, whole_second,
    NS_PER_DAY, NS_PER_SEC.
  change (10 ^ 9) with 1000000000. change (86400 * 1000000000) with 86400000000000.
  destruct win as [d0 d1]. cbn [fst snd].
  pose proof (Z.div_mod t 86400000000000 ltac:(lia)) as Hd.
  pose proof (Z.mod_pos_bound t 86400000000000 ltac:(lia)) as Hm.
  split.
  - intros H. lia.
  - intros Hs H.
    pose proof (Z.div_mod t 1000000000 ltac:(lia)) as Hd'.
    rewrite Hs in Hd'. lia.
Qed.

(** X4. The window keeps rows of the table only, each dated within the
    two chosen dates; a row whose timestamp has no fractional second is
    kept exactly when its date lies within the two chosen dates. *)
Theorem select_window_dates (win : Z * Z) (df : DataFrame) (r : Transaction) :
  (In r (select_window win df) ->
   In r df /\ fst win <= date (tx_datetime r) <= snd win)
  /\ (whole_second (tx_datetime r) ->
      In r df -> fst win <= date (tx_datetime r) <= snd win ->
      In r (select_window win df)).
Proof.
  unfold select_window. split.
  - intros H. apply filter_In in H. destruct H as [Hin H].
    apply andb_true_iff in H. rewrite !Z.leb_le in H.
    split; [exact Hin|]. now apply window_bounds_dates.
  - intros Hs Hin Hd. apply filter_In. split; [exact Hin|].
    apply andb_true_iff. rewrite !Z.leb_le.
    now apply window_bounds_dates.
Qed.

Lemma select_window_dates_witness :
  In (mkTx (at_ 20001 11) 300 "ZA" "ATM") (select_window (20001, 20001) scenario_A).
Proof.
  apply (select_window_dates (20001, 20001) scenario_A).
  - reflexivity.
  - cbn. tauto.
  - cbn. split; discriminate.
Defined.

(** X5. The window ends at 23:59:59 of the end date: a row of the end
    date that lies later than that, within the last second of the day,
    is left out of the window. *)
Theorem select_window_last_second (win : Z * Z) (df : DataFrame) (r : Transaction) :
  date (tx_datetime r) = snd win ->
  NS_PER_DAY - NS_PER_SEC < tx_datetime r mod NS_PER_DAY ->
  ~ In r (select_window win df).
Proof.
  intros Hd Hm Hin. unfold select_window in Hin.
  apply filter_In in Hin. destruct Hin as [_ H].
  apply andb_true_iff in H. destruct H as [_ H]. apply Z.leb_le in H.
  revert Hd Hm H.
  unfold window_end, to_datetime, date, NS_PER_DAY, NS_PER_SEC.
  change (10 ^ 9) with 1000000000. change (86400 * 1000000000) with 86400000000000.
  generalize (tx_datetime r). intros t Hd Hm H.
  pose proof (Z.div_mod t 86400000000000 ltac:(lia)). lia.
Qed.

Lemma select_window_last_second_witness :
  date (tx_datetime late_row) = 20000
  /\ ~ In late_row (select_window (20000, 20000) with_late_row).
Proof.
  split; [reflexivity|].
  apply (select_window_last_second (20000, 20000) with_late_row late_row);
    reflexivity.
Defined.

(** X6. With the default value of the date picker (the dates of the
    earliest and the latest transaction) and timestamps without
    fractional seconds, the window is the whole table. *)
Theorem default_window_selects_all (df : DataFrame) (win : Z * Z) :
  default_window df = Some win ->
  (forall r, In r df -> whole_second (tx_datetime r)) ->
  select_window win df = df.
Proof.
  unfold default_window. intros Hw Hs.
  destruct (series_min (map tx_datetime df)) as [lo|] eqn:Elo; [|discriminate].
  destruct (series_max (map tx_datetime df)) as [hi|] eqn:Ehi; [|discriminate].
  inversion Hw as [E]. clear Hw.
  apply series_min_spec in Elo. apply series_max_spec in Ehi.
  destruct Elo as [_ Hlo]. destruct Ehi as [_ Hhi].
  unfold select_window. apply filter_all. intros r Hr.
  apply andb_true_iff. rewrite !Z.leb_le.
  apply window_bounds_dates; [now apply Hs|]. cbn [fst snd]. unfold date.
  assert (Ht : In (tx_datetime r) (map tx_datetime df)) by now apply in_map.
  split; apply Z.div_le_mono; try (cbv; reflexivity); auto.
Qed.

Lemma default_window_selects_all_witness :
  select_window (20000, 20002) scenario_A = scenario_A.
Proof.
  apply (default_window_selects_all scenario_A (20000, 20002)).
  - reflexivity.
  - intros r Hr. cbn in Hr.
    destruct Hr as [<-|[<-|[<-|[<-|[]]]]]; reflexivity.
Defined.

(** With a fractional-second row in the last second of the latest day,
    the default window drops that row. *)
Example default_window_drops_late_row :
  default_window with_late_row = Some (20000, 20000)
  /\ select_window (20000, 20000) with_late_row
     = [ mkTx (at_ 20000 9) 100 "ZA" "EFT" ].
Proof. split; reflexivity. Qed.

(** ** The burst rule on hour-of-day counts *)

Lemma count_occurring (k : Z) (l : list Z) :
  In k l -> 1 <= len (filter (Z.eqb k) l).
Proof.
  induction l as [|x l IH]; intros H; [destruct H|].
  cbn [filter]. destruct (k =? x) eqn:E.
  - rewrite len_cons. pose proof (len_nonneg (filter (Z.eqb k) l)). lia.
  - destruct H as [H|H]; [|now apply IH].
    subst. now rewrite Z.eqb_refl in E.
Qed.

Lemma len_filter_le {A : Type} (p : A -> bool) (l : list A) :
  len (filter p l) <= len l.
Proof.
  induction l as [|x l IH]; [cbn; lia|].
  cbn [filter]. destruct (p x); rewrite ?len_cons; lia.
Qed.

(** Every count of [value_counts] is at least 1. *)
Lemma value_counts_positive (l : list Z) (c : Z) :
  In c (map snd (value_counts l)) -> 1 <= c.
Proof.
  intros H. apply (Permutation_in _ (value_counts_counts l)) in H.
  apply in_map_iff in H. destruct H as [k [<- Hk]].
  apply count_occurring. now apply in_unique.
Qed.

Lemma value_counts_nil (l : list Z) :
  map snd (value_counts l) = [] <-> l = [].
Proof.
  split.
  - intros H. pose proof (Permutation_length (value_counts_counts l)) as Hl.
    rewrite H, length_map in Hl. destruct l; [reflexivity | discriminate Hl].
  - intros ->. reflexivity.
Qed.

Lemma median_nan (l : list Z) : median l = NaN <-> l = [].
Proof.
  unfold median.
  pose proof (Permutation_length (argsort_perm (fun z => z) l)) as Hl.
  destruct l as [|x l]; [split; reflexivity|].
  destruct (argsort (fun z : Z => z) (x :: l)) as [|y s]; [discriminate Hl|].
  cbn [List.length]. split; [|discriminate].
  destruct (Nat.even (S (List.length s))); discriminate.
Qed.

(** The median of values that are all at least 1 is at least 1. *)
Lemma median_at_least_one (l : list Z) :
  l <> [] -> (forall x, In x l -> 1 <= x) ->
  exists q, median l = Fin q /\ (1 <= q)%Q.
Proof.
  intros Hne Hall. unfold median.
  pose proof (argsort_perm (fun z => z) l) as Hp.
  pose proof (Permutation_length Hp) as Hl.
  set (s := argsort (fun z : Z => z) l) in *.
  assert (Hs : forall i, (i < List.length s)%nat -> 1 <= nth i s 0).
  { intros i Hi. apply Hall. apply (Permutation_in _ Hp). now apply nth_In. }
  destruct (List.length s) as [|n] eqn:En.
  { destruct l; [congruence | discriminate Hl]. }
  destruct (Nat.even (S n)) eqn:Ev.
  - eexists. split; [reflexivity|].
    assert (Hn : (1 <= n)%nat).
    { destruct n; [discriminate Ev | lia]. }
    assert (H2 : (S n / 2 < S n)%nat) by (apply Nat.div_lt; lia).
    pose proof (Hs (S n / 2 - 1)%nat ltac:(lia)) as Ha.
    pose proof (Hs (S n / 2)%nat ltac:(lia)) as Hb.
    rewrite Qred_correct. apply Qle_shift_div_l; [reflexivity|].
    rewrite <- inject_Z_plus.
    change (1 * inject_Z 2)%Q with (inject_Z 2). rewrite <- Zle_Qle. lia.
  - eexists. split; [reflexivity|].
    assert (H2 : (S n / 2 < S n)%nat) by (apply Nat.div_lt; lia).
    pose proof (Hs (S n / 2)%nat ltac:(lia)) as Hb.
    change 1%Q with (inject_Z 1). rewrite <- Zle_Qle. lia.
Qed.

(** How [hist_med] and the floor at 1 interact. *)
Lemma hist_med_cases (df_win df_hist : DataFrame) :
  py_max (hist_med df_win df_hist) (of_int 1) = hist_med df_win df_hist
  /\ (hist_med df_win df_hist = NaN <-> recent_history df_win df_hist = [])
  /\ (recent_history df_win df_hist <> [] ->
      exists q, hist_med df_win df_hist = Fin q /\ (1 <= q)%Q)
  /\ score (burst (spotlights df_win df_hist))
     = fdiv (win_max df_win) (hist_med df_win df_hist).
Proof.
  assert (Hnan : hist_med df_win df_hist = NaN
                 <-> recent_history df_win df_hist = []).
  { unfold hist_med. fold (recent_history df_win df_hist).
    rewrite median_nan, value_counts_nil.
    destruct (recent_history df_win df_hist); cbn; split; congruence. }
  assert (Hfin : recent_history df_win df_hist <> [] ->
                 exists q, hist_med df_win df_hist = Fin q /\ (1 <= q)%Q).
  { intros Hne. unfold hist_med. fold (recent_history df_win df_hist).
    apply median_at_least_one.
    - rewrite value_counts_nil.
      destruct (recent_history df_win df_hist); [congruence | discriminate].
    - apply value_counts_positive. }
  assert (Hmax : py_max (hist_med df_win df_hist) (of_int 1)
                 = hist_med df_win df_hist).
  { destruct (recent_history df_win df_hist) as [|r rest] eqn:E.
    - rewrite (proj2 Hnan eq_refl). reflexivity.
    - destruct (Hfin ltac:(discriminate)) as [q [Hq Hle]]. rewrite Hq.
      unfold py_max, of_int, fgt.
      apply Qle_bool_iff in Hle. change (inject_Z 1) with 1%Q.
      now rewrite Hle. }
  split; [exact Hmax|]. split; [exact Hnan|]. split; [exact Hfin|].
  unfold spotlights. cbn [burst score]. now rewrite Hmax.
Qed.

(** X7. [max(hist_med, 1)] always returns [hist_med]: [hist_med] is
    [NaN] exactly when no history row lies in the trailing period, and
    otherwise a number that is at least 1, so the floor at 1 never
    changes the denominator of the burst score. *)
Theorem burst_floor_never_applies (df_win df_hist : DataFrame) :
  py_max (hist_med df_win df_hist) (of_int 1) = hist_med df_win df_hist
  /\ (hist_med df_win df_hist = NaN <-> recent_history df_win df_hist = [])
  /\ (recent_history df_win df_hist <> [] ->
      exists q, hist_med df_win df_hist = Fin q /\ (1 <= q)%Q)
  /\ score (burst (spotlights df_win df_hist))
     = fdiv (win_max df_win) (hist_med df_win df_hist).
Proof. exact (hist_med_cases df_win df_hist). Qed.

Lemma burst_floor_never_applies_witness :
  exists q, hist_med scenario_C scenario_A = Fin q /\ (1 <= q)%Q.
Proof.
  apply (burst_floor_never_applies scenario_C scenario_A). discriminate.
Defined.

(** X8. For a window without rows, whatever the history: the burst
    spotlight is flag false with a [NaN] score, and the imbalance
    spotlight is flag true with an infinite ratio. *)
Theorem spotlights_empty_window (df_hist : DataFrame) :
  spotlights [] df_hist
  = {| burst := {| burst_flag := false; score := NaN |};
       imbalance := {| imbalance_flag := true; ratio := PInf |} |}.
Proof. reflexivity. Qed.

(** The hour-of-day counts of a non-empty table have a largest one. *)
Lemma win_max_bucket (df : DataFrame) :
  df <> [] ->
  exists h,
    win_max df = of_int (len (in_hour h df))
    /\ In h (map hour_of df)
    /\ (forall h', len (in_hour h' df) <= len (in_hour h df)).
Proof.
  intros Hne. unfold win_max.
  destruct (series_max (map snd (value_counts (map hour_of df)))) as [m|] eqn:E.
  - apply series_max_spec in E. destruct E as [Hin Hmax].
    pose proof Hin as Hin'.
    apply (Permutation_in _ (value_counts_counts _)) in Hin'.
    apply in_map_iff in Hin'. destruct Hin' as [h [Hm Hh]].
    rewrite <- len_in_hour in Hm. apply (proj1 (in_unique _ _)) in Hh.
    exists h. subst m. split; [reflexivity|]. split; [exact Hh|].
    intros h'. destruct (in_dec Z.eq_dec h' (map hour_of df)) as [Hh'|Hh'].
    + apply Hmax.
      apply (Permutation_in _ (Permutation_sym (value_counts_counts _))).
      apply in_map_iff. exists h'. split; [symmetry; apply len_in_hour|].
      now apply in_unique.
    + unfold in_hour at 1. rewrite filter_none.
      * apply len_nonneg.
      * intros r Hr. apply Z.eqb_neq. intros Eh. apply Hh'. subst h'.
        now apply in_map.
  - apply (proj1 (series_max_none _)) in E.
    apply (proj1 (value_counts_nil _)) in E.
    destruct df; [congruence | discriminate E].
Qed.

(** X9. For a non-empty window, [win_max] is the largest entry of the
    [hourly] vector of the window; it is at least 1 and at most the
    number of rows. *)
Theorem win_max_largest_hourly (df : DataFrame) :
  df <> [] ->
  exists h c,
    In (h, c) (hourly df)
    /\ win_max df = of_int c
    /\ (forall h' c', In (h', c') (hourly df) -> c' <= c)
    /\ 1 <= c <= len df.
Proof.
  intros Hne. destruct (win_max_bucket df Hne) as [h [Hw [Hh Hmax]]].
  exists h, (len (in_hour h df)). rewrite hourly_counts.
  split; [|split; [exact Hw|split]].
  - apply in_map_iff. exists h. split; [reflexivity|].
    apply in_map_iff in Hh. destruct Hh as [r [<- _]].
    apply in_range. cbn. apply hour_bounds.
  - intros h' c' H. apply in_map_iff in H. destruct H as [k [E _]].
    inversion E. subst. apply Hmax.
  - split.
    + rewrite len_in_hour. now apply count_occurring.
    + apply len_filter_le.
Qed.

Lemma win_max_largest_hourly_witness :
  exists h c,
    In (h, c) (hourly scenario_A)
    /\ win_max scenario_A = of_int c
    /\ (forall h' c', In (h', c') (hourly scenario_A) -> c' <= c)
    /\ 1 <= c <= len scenario_A.
Proof.
  apply (win_max_largest_hourly scenario_A). discriminate.
Defined.

Lemma at_least_one_nonzero (q : Q) : (1 <= q)%Q -> Qeq_bool q 0 = false.
Proof.
  intros Hle. destruct (Qeq_bool q 0) eqn:E0; [|reflexivity].
  apply Qeq_bool_iff in E0. rewrite E0 in Hle.
  unfold Qle in Hle. cbn in Hle. lia.
Qed.

(** X10. The burst flag is raised only when some hour of day holds at
    least 4 rows of the window; a window of at most 3 rows is never
    flagged, whatever the history. *)
Theorem burst_flag_needs_four (df_win df_hist : DataFrame) :
  burst_flag (burst (spotlights df_win df_hist)) = true ->
  (exists h, 4 <= len (in_hour h df_win)) /\ 4 <= len df_win.
Proof.
  intros Hflag.
  destruct (hist_med_cases df_win df_hist) as [_ [Hnan [Hfin Hscore]]].
  destruct (burst_formula df_win df_hist) as [_ Hf].
  rewrite Hf, Hscore in Hflag. clear Hf Hscore.
  destruct df_win as [|r0 rest] eqn:Edf; [discriminate Hflag|].
  rewrite <- Edf in *.
  assert (Hne : df_win <> []) by (rewrite Edf; discriminate).
  destruct (win_max_bucket df_win Hne) as [h [Hw [_ _]]].
  rewrite Hw in Hflag.
  destruct (recent_history df_win df_hist) as [|r rs] eqn:Er.
  { rewrite (proj2 Hnan eq_refl) in Hflag. discriminate Hflag. }
  destruct (Hfin ltac:(discriminate)) as [q [Hq Hle]].
  rewrite Hq in Hflag. unfold of_int, fdiv in Hflag.
  pose proof (at_least_one_nonzero q Hle) as Hq0.
  rewrite Hq0 in Hflag. unfold fgt, three, of_int in Hflag.
  apply negb_true_iff in Hflag.
  assert (Hgt : (inject_Z 3 < inject_Z (len (in_hour h df_win)) / q)%Q).
  { apply Qnot_le_lt. intros Hc. rewrite <- Qred_correct in Hc.
    apply Qle_bool_iff in Hc. congruence. }
  assert (Hpos : (0 < q)%Q) by (apply (Qlt_le_trans _ 1); [reflexivity | exact Hle]).
  apply (Qmult_lt_compat_r _ _ q Hpos) in Hgt.
  unfold Qdiv in Hgt. rewrite <- Qmult_assoc in Hgt.
  rewrite (Qmult_comm (/ q) q), Qmult_inv_r, Qmult_1_r in Hgt
    by (intros E0; rewrite E0 in Hpos; discriminate Hpos).
  assert (H3 : (inject_Z 3 <= inject_Z 3 * q)%Q).
  { rewrite <- (Qmult_1_r (inject_Z 3)) at 1.
    rewrite !(Qmult_comm (inject_Z 3)).
    apply Qmult_le_compat_r; [exact Hle | discriminate]. }
  pose proof (Qle_lt_trans _ _ _ H3 Hgt) as Hlt.
  rewrite <- Zlt_Qlt in Hlt.
  assert (H4 : 4 <= len (in_hour h df_win)) by lia.
  split; [now exists h|].
  pose proof (len_filter_le (fun r => hour_of r =? h) df_win) as Hl.
  fold (in_hour h df_win) in Hl. lia.
Qed.

Lemma burst_flag_needs_four_witness :
  (exists h, 4 <= len (in_hour h scenario_C)) /\ 4 <= len scenario_C.
Proof.
  apply (burst_flag_needs_four scenario_C
           [mkTx (at_ 20004 9) 5 "ZA" "EFT"]).
  reflexivity.
Defined.

(** X11. When the window is cut out of the table that serves as history,
    as the dashboard does, and holds at least one row, the trailing
    history is not empty: [hist_med] is a number and the burst score is a
    positive number, the largest hour-of-day count of the window divided
    by [hist_med]. *)
Theorem dashboard_burst_score (win : Z * Z) (df : DataFrame) :
  select_window win df <> [] ->
  recent_history (select_window win df) df <> []
  /\ exists m q,
       win_max (select_window win df) = of_int m /\ 1 <= m
       /\ hist_med (select_window win df) df = Fin q /\ (1 <= q)%Q
       /\ score (burst (spotlights (select_window win df) df))
          = Fin (Qred (inject_Z m / q)).
Proof.
  set (dfw := select_window win df). intros Hne.
  assert (Hrec : recent_history dfw df <> []).
  { unfold recent_history, hist_start.
    destruct (series_max (map tx_datetime dfw)) as [m|] eqn:Em.
    - apply series_max_spec in Em. destruct Em as [Hin _].
      apply in_map_iff in Hin. destruct Hin as [r [Ht Hr]].
      cbn [option_map since].
      assert (Hin : In r (filter (fun r0 => m - DAYS_90 <=? tx_datetime r0) df)).
      { apply filter_In. split.
        - unfold dfw, select_window in Hr. apply filter_In in Hr. tauto.
        - apply Z.leb_le. rewrite Ht. unfold DAYS_90. lia. }
      intros E. rewrite E in Hin. destruct Hin.
    - apply (proj1 (series_max_none _)) in Em.
      destruct dfw; [congruence | discriminate Em]. }
  split; [exact Hrec|].
  destruct (hist_med_cases dfw df) as [_ [_ [Hfin Hscore]]].
  destruct (Hfin Hrec) as [q [Hq Hle]].
  destruct (win_max_bucket dfw Hne) as [h [Hw [Hh _]]].
  exists (len (in_hour h dfw)), q. split; [exact Hw|].
  split; [rewrite len_in_hour; now apply count_occurring|].
  split; [exact Hq|]. split; [exact Hle|].
  rewrite Hscore, Hw, Hq. unfold of_int, fdiv.
  pose proof (at_least_one_nonzero q Hle) as Hq0.
  now rewrite Hq0.
Qed.

Lemma dashboard_burst_score_witness :
  recent_history (select_window (20000, 20002) scenario_A) scenario_A <> [].
Proof.
  apply (dashboard_burst_score (20000, 20002) scenario_A). discriminate.
Defined.

(** ** Row order *)

Lemma series_max_perm (l l' : list Z) :
  Permutation l l' -> series_max l = series_max l'.
Proof.
  intros Hp.
  destruct (series_max l) as [m|] eqn:E, (series_max l') as [m'|] eqn:E'.
  - apply series_max_spec in E, E'. destruct E as [Hin Hmax], E' as [Hin' Hmax'].
    f_equal. apply Z.le_antisymm.
    + apply Hmax'. now apply (Permutation_in _ Hp).
    + apply Hmax. now apply (Permutation_in _ (Permutation_sym Hp)).
  - apply (proj1 (series_max_none _)) in E'. subst l'.
    apply Permutation_sym, Permutation_nil in Hp. subst l. discriminate E.
  - apply (proj1 (series_max_none _)) in E. subst l.
    apply Permutation_nil in Hp. subst l'. discriminate E'.
  - reflexivity.
Qed.

Lemma value_counts_perm (l l' : list Z) :
  Permutation l l' ->
  Permutation (map snd (value_counts l)) (map snd (value_counts l')).
Proof.
  intros Hp. rewrite !value_counts_counts.
  rewrite (map_ext (fun k => len (filter (Z.eqb k) l))
                   (fun k => len (filter (Z.eqb k) l')))
    by (intros k; apply len_perm, filter_perm, Hp).
  apply Permutation_map, NoDup_Permutation; try apply NoDup_unique.
  intros x. rewrite !in_unique. split; apply Permutation_in;
    [exact Hp | now symmetry].
Qed.

Lemma agg_perm (p : Transaction -> bool) (df df' : DataFrame) :
  Permutation df df' ->
  len (filter p df) = len (filter p df')
  /\ sum (amounts (filter p df)) = sum (amounts (filter p df')).
Proof.
  intros Hp. pose proof (filter_perm p _ _ Hp) as Hf. split.
  - now apply len_perm.
  - unfold amounts. now apply sum_perm, Permutation_map.
Qed.

(** X12. What the metric engine counts does not depend on the order of
    the rows: on any two tables with the same rows, [hourly] is the
    same, and so are the deposit and withdrawal counts of [totals] and
    the domestic and international counts of [dom_intl]. *)
Theorem counts_row_order (df df' : DataFrame) :
  Permutation df df' ->
  hourly df = hourly df'
  /\ count (deposits (totals df)) = count (deposits (totals df'))
  /\ count (withdrawals (totals df)) = count (withdrawals (totals df'))
  /\ (forall home,
        count (domestic (dom_intl df home))
        = count (domestic (dom_intl df' home))
        /\ count (international (dom_intl df home))
           = count (international (dom_intl df' home))).
Proof.
  intros Hp. split; [|split; [|split]].
  - rewrite !hourly_counts. apply map_ext. intros h. unfold in_hour.
    now destruct (agg_perm (fun r => hour_of r =? h) _ _ Hp) as [-> _].
  - cbn [totals deposits count]. unfold positive.
    now destruct (agg_perm (fun r => 0 <? amount r) _ _ Hp) as [-> _].
  - cbn [totals withdrawals count]. unfold negative.
    now destruct (agg_perm (fun r => amount r <? 0) _ _ Hp) as [-> _].
  - intros home.
    destruct (dom_intl_rows df home) as [H1 H2].
    destruct (dom_intl_rows df' home) as [H1' H2'].
    rewrite H1, H2, H1', H2'. cbn [count].
    unfold domestic_rows, international_rows.
    destruct (agg_perm (is_domestic home) _ _ Hp) as [-> _].
    now destruct (agg_perm (fun r => negb (is_domestic home r)) _ _ Hp)
      as [-> _].
Qed.

Lemma counts_row_order_witness :
  hourly (rev scenario_A) = hourly scenario_A.
Proof.
  apply (counts_row_order (rev scenario_A) scenario_A).
  apply Permutation_sym, Permutation_rev.
Defined.

(** X13. The burst spotlight does not depend on the order of the rows
    of the window nor of the history. *)
Theorem burst_row_order (df_win df_win' df_hist df_hist' : DataFrame) :
  Permutation df_win df_win' -> Permutation df_hist df_hist' ->
  burst (spotlights df_win df_hist) = burst (spotlights df_win' df_hist').
Proof.
  intros Hw Hh.
  assert (Ewm : win_max df_win = win_max df_win').
  { unfold win_max. f_equal. apply series_max_perm, value_counts_perm.
    now apply Permutation_map. }
  assert (Ehs : hist_start df_win = hist_start df_win').
  { unfold hist_start. f_equal. apply series_max_perm.
    now apply Permutation_map. }
  assert (Ehm : hist_med df_win df_hist = hist_med df_win' df_hist').
  { unfold hist_med. rewrite <- Ehs. apply median_perm, value_counts_perm.
    apply Permutation_map. unfold since.
    destruct (hist_start df_win); [now apply filter_perm | constructor]. }
  unfold spotlights. cbn [burst].
  fold (win_max df_win) (win_max df_win'). now rewrite Ewm, Ehm.
Qed.

Lemma burst_row_order_witness :
  burst (spotlights (rev scenario_C) (rev scenario_A))
  = burst (spotlights scenario_C scenario_A).
Proof.
  apply (burst_row_order (rev scenario_C) scenario_C (rev scenario_A) scenario_A);
    apply Permutation_sym, Permutation_rev.
Defined.

(** [extremes] does depend on the row order when amounts tie: reversing
    the rows returns the other row of each tied pair. *)
Example extremes_row_order_tied :
  largest_deposit (extremes (rev tied_extremes))
  = [mkTx (at_ 20000 11) 70 "US" "ATM"]
  /\ largest_deposit (extremes tied_extremes)
     = [mkTx (at_ 20000 9) 70 "ZA" "EFT"].
Proof. split; reflexivity. Qed.

(** ** Totals, extremes and the extremes table *)






Lemma nlargest1_nil (df : DataFrame) : nlargest1 df = [] <-> df = [].
Proof. destruct df; cbn; split; congruence. Qed.

Lemma nsmallest1_nil (df : DataFrame) : nsmallest1 df = [] <-> df = [].
Proof. destruct df; cbn; split; congruence. Qed.

(** X16. The extremes table has at most two rows, each a row of the
    input with a non-zero amount; it is empty exactly when every amount
    of the input is zero (in particular for an empty input). *)
Theorem extremes_table_rows (df : DataFrame) :
  (List.length (extremes_table df) <= 2)%nat
  /\ (forall r, In r (extremes_table df) -> In r df /\ amount r <> 0)
  /\ (extremes_table df = [] <-> forall r, In r df -> amount r = 0).
Proof.
  unfold extremes_table, extremes. cbn [largest_deposit largest_withdrawal].
  split; [|split].
  - rewrite length_app.
    assert (H1 : (List.length (nlargest1 (positive df)) <= 1)%nat)
      by (destruct (positive df); cbn; lia).
    assert (H2 : (List.length (nsmallest1 (negative df)) <= 1)%nat)
      by (destruct (negative df); cbn; lia).
    lia.
  - intros r Hr. apply in_app_or in Hr. destruct Hr as [Hr|Hr].
    + destruct (positive df) as [|x l] eqn:E; [destruct Hr|].
      destruct (nlargest1_first (x :: l) ltac:(discriminate))
        as [before [t [after [Hdf [Ht _]]]]].
      rewrite Ht in Hr. destruct Hr as [<-|[]].
      assert (Hin : In t (positive df)) by (rewrite E, Hdf; apply in_elt).
      apply filter_In in Hin. destruct Hin as [Hin Hp]. apply Z.ltb_lt in Hp.
      split; [exact Hin | lia].
    + destruct (negative df) as [|x l] eqn:E; [destruct Hr|].
      destruct (nsmallest1_first (x :: l) ltac:(discriminate))
        as [before [t [after [Hdf [Ht _]]]]].
      rewrite Ht in Hr. destruct Hr as [<-|[]].
      assert (Hin : In t (negative df)) by (rewrite E, Hdf; apply in_elt).
      apply filter_In in Hin. destruct Hin as [Hin Hp]. apply Z.ltb_lt in Hp.
      split; [exact Hin | lia].
  - split.
    + intros H. apply app_eq_nil in H. destruct H as [H1 H2].
      apply (proj1 (nlargest1_nil _)) in H1. apply (proj1 (nsmallest1_nil _)) in H2.
      intros r Hr.
      destruct (Z.lt_trichotomy (amount r) 0) as [Hlt|[E|Hgt]]; [|exact E|].
      * assert (Hin : In r (negative df))
          by (apply filter_In; split; [exact Hr | now apply Z.ltb_lt]).
        rewrite H2 in Hin. destruct Hin.
      * assert (Hin : In r (positive df))
          by (apply filter_In; split; [exact Hr | now apply Z.ltb_lt]).
        rewrite H1 in Hin. destruct Hin.
    + intros H.
      assert (H1 : positive df = []).
      { apply filter_none. intros r Hr. rewrite (H r Hr). reflexivity. }
      assert (H2 : negative df = []).
      { apply filter_none. intros r Hr. rewrite (H r Hr). reflexivity. }
      now rewrite H1, H2.
Qed.

Lemma extremes_table_rows_witness :
  extremes_table [mkTx (at_ 20000 9) 0 "ZA" "EFT"] = [].
Proof.
  apply (extremes_table_rows [mkTx (at_ 20000 9) 0 "ZA" "EFT"]).
  intros r [<-|[]]. reflexivity.
Defined.

(** ** The history that the burst rule reads *)

Lemma recent_history_since (df_win df_hist : DataFrame) (m : Z) :
  series_max (map tx_datetime df_win) = Some m ->
  recent_history df_win df_hist
  = filter (fun r => m - DAYS_90 <=? tx_datetime r) df_hist.
Proof.
  intros Hm. unfold recent_history, hist_start. now rewrite Hm.
Qed.

(** C10, as the code computes it.  With [m] the latest timestamp of the
    window, the rule reads every history row with
    [tx_datetime >= m - 90 days], rows later than [m] included.
    [hist_med] is the median over the hour-of-day buckets that hold at
    least one of these rows; buckets without such a row do not enter as
    zeros.  When these rows all fall in one hour of day, [hist_med] is
    their number. *)
Theorem hist_med_rows_since (df_win df_hist : DataFrame) (m : Z) :
  series_max (map tx_datetime df_win) = Some m ->
  hist_med df_win df_hist
  = median (filter (fun c => 0 <? c)
              (map snd (hourly (filter (fun r => m - DAYS_90 <=? tx_datetime r)
                                       df_hist))))
  /\ (forall h,
        (exists r, In r df_hist /\ m - DAYS_90 <= tx_datetime r) ->
        (forall r, In r df_hist -> m - DAYS_90 <= tx_datetime r ->
                   hour_of r = h) ->
        hist_med df_win df_hist
        = of_int (len (filter (fun r => m - DAYS_90 <=? tx_datetime r)
                              df_hist))).
Proof.
  intros Hm.
  destruct (hist_med_of_recent_history df_win df_hist) as [H1 H2].
  rewrite (recent_history_since df_win df_hist m Hm) in H1, H2.
  split; [exact H1|]. intros h [r [Hr Hle]] Hall. apply (H2 h).
  - intros E.
    assert (Hin : In r (filter (fun r => m - DAYS_90 <=? tx_datetime r) df_hist))
      by (apply filter_In; split; [exact Hr | now apply Z.leb_le]).
    rewrite E in Hin. destruct Hin.
  - intros x Hx. apply filter_In in Hx. destruct Hx as [Hx Hb].
    apply Z.leb_le in Hb. now apply Hall.
Qed.

Lemma hist_med_rows_since_witness :
  hist_med scenario_C scenario_C = of_int 5.
Proof.
  apply (proj2 (hist_med_rows_since scenario_C scenario_C (at_ 20004 14) eq_refl) 14).
  - exists (mkTx (at_ 20004 14) 50 "ZA" "EFT"). split; [|discriminate].
    cbn. tauto.
  - intros r Hr _. cbn in Hr.
    destruct Hr as [<-|[<-|[<-|[<-|[<-|[]]]]]]; reflexivity.
Defined.

(** The window of day 20000 cut out of the four-day table. *)
Example first_day_window : select_window (20000, 20000) four_days = first_day.
Proof. reflexivity. Qed.

(** C10 as stated does not hold.  For the window of day 20000 of the
    four-day table, the history rows of the 90 days ending at the
    window's latest timestamp are the one row of hour 14, yet [hist_med]
    is not 1: the three later rows of hour 9 are read too, and
    [hist_med] is the median of the counts 1 and 3. *)
Lemma hist_med_trailing_as_stated_fails :
  ~ ((forall r, In r (trailing_90_days first_day four_days) -> hour_of r = 14) ->
     hist_med first_day four_days
     = of_int (len (trailing_90_days first_day four_days))).
Proof.
  intros H.
  assert (Hall : forall r, In r (trailing_90_days first_day four_days) ->
                           hour_of r = 14).
  { intros r Hr. vm_compute in Hr. destruct Hr as [<-|[]]. reflexivity. }
  specialize (H Hall). vm_compute in H. discriminate H.
Qed.

Example hist_med_four_days :
  trailing_90_days first_day four_days = first_day
  /\ hist_med first_day four_days = of_int 2.
Proof. split; reflexivity. Qed.

(** ** The burst rule with a history that contains the window *)






